(** * TextSeq2Seq synapse: shape validation, nil responses and wire (de)serialization

    A shallow embedding of [bittensor/_synapse/text_seq2seq_impl.py].

    - [Py]: Python exceptions, results, and the state-and-error monad in
      which the methods of an object run (the state is the object [self]).
    - [Torch]: the part of [torch.Tensor] the synapse uses ([shape], [size],
      [torch.zeros]).
    - [Protobuf]: the proto3 wire format used by [SerializeToString] and
      [ParseFromString] (base-128 varints, tagged fields).
    - [Proto]: the two messages of [bittensor.proto] the class exchanges.
    - [TextSeq2Seq]: the class itself, method by method. *)

From Stdlib Require Import ZArith NArith List String Ascii Bool Lia.
From Stdlib.Strings Require Import Byte.
From Stdlib Require Import DecimalString SpecFloat.
Import ListNotations.

Local Open Scope Z_scope.

(* ===================================================================== *)
(** ** Python: exceptions and methods *)
(* ===================================================================== *)

Module Py.

(** The exceptions that can leave the code under study.  [ValueError] is the
    one the synapse raises itself; the others come from the libraries. *)
Inductive exn : Type :=
| ValueError (msg : string)
| IndexError
| RuntimeError
| DecodeError.

Inductive result (A : Type) : Type :=
| Ok (a : A)
| Raise (e : exn).
Arguments Ok {A} a.
Arguments Raise {A} e.

Definition rbind {A B} (r : result A) (k : A -> result B) : result B :=
  match r with
  | Ok a => k a
  | Raise e => Raise e
  end.

Definition is_ok {A} (r : result A) : bool :=
  match r with Ok _ => true | Raise _ => false end.

(** A method of an object whose attributes have type [S]: it reads and may
    write [self], and returns or raises. *)
Definition method (S A : Type) : Type := S -> result A * S.

Definition ret {S A} (a : A) : method S A := fun self => (Ok a, self).

Definition raise {S A} (e : exn) : method S A := fun self => (Raise e, self).

Definition bind {S A B} (m : method S A) (k : A -> method S B) : method S B :=
  fun self =>
    match m self with
    | (Ok a, self') => k a self'
    | (Raise e, self') => (Raise e, self')
    end.

(** [self.attr] *)
Definition getattr {S A} (attr : S -> A) : method S A :=
  fun self => (Ok (attr self), self).

(** A call into library code that has no access to [self]. *)
Definition lift {S A} (r : result A) : method S A := fun self => (r, self).

(** [a or b] on booleans, with Python's short circuit. *)
Definition or_ {S} (a b : method S bool) : method S bool :=
  bind a (fun x => if x then ret true else b).

(** [str(n)] for an [int]. *)
Definition str_int (n : Z) : string := NilZero.string_of_int (Z.to_int n).

Fixpoint join (sep : string) (l : list string) : string :=
  match l with
  | [] => EmptyString
  | [x] => x
  | x :: rest => (x ++ sep ++ join sep rest)%string
  end.

(** [str(l)] for a [list] of [int]. *)
Definition str_list (l : list Z) : string :=
  ("[" ++ join ", " (map str_int l) ++ "]")%string.

End Py.

Declare Scope py_scope.
Delimit Scope py_scope with py.
Notation "x <- m ;; k" := (Py.bind m (fun x => k))
  (at level 61, m at next level, right associativity) : py_scope.

(* ===================================================================== *)
(** ** Torch: tensors as far as the synapse looks at them *)
(* ===================================================================== *)

Module Torch.
Import Py.

Inductive dtype : Type := float32 | float64 | int32 | int64 | bool_.

(** An element: an integer, or an IEEE 754 value. *)
Inductive scalar : Type :=
| SInt (z : Z)
| SFloat (f : spec_float).

(** [0.] *)
Definition zero : scalar := SFloat (S754_zero false).

(** [shape] is [torch.Size]: its entries are never negative.  [data] holds the
    elements in row-major order. *)
Record Tensor : Type := mkTensor {
  shape : list N;
  dtype_ : dtype;
  data : list scalar
}.

(** [len(t.shape)] *)
Definition rank (t : Tensor) : Z := Z.of_nat (List.length (shape t)).

(** [list(t.shape)] *)
Definition shape_list (t : Tensor) : list Z := map Z.of_N (shape t).

(** [t.size(d)]: [d] counts from the end when negative; out of range is an
    [IndexError]. *)
Definition size (t : Tensor) (d : Z) : result Z :=
  let r := rank t in
  if (- r <=? d) && (d <? r)
  then Ok (Z.of_N (nth (Z.to_nat (if d <? 0 then d + r else d)) (shape t) 0%N))
  else Raise IndexError.

Definition numel (sz : list N) : N := fold_right N.mul 1%N sz.

(** [torch.zeros(sz, dtype=torch.float32)]: a negative dimension is a
    [RuntimeError]. *)
Definition zeros (sz : list Z) : result Tensor :=
  if forallb (fun d => 0 <=? d) sz
  then let sz' := map Z.to_N sz in
       Ok (mkTensor sz' float32 (repeat zero (N.to_nat (numel sz'))))
  else Raise RuntimeError.

Definition all_zero (t : Tensor) : Prop := Forall (fun x => x = zero) (data t).

End Torch.

(* ===================================================================== *)
(** ** Protobuf: the proto3 wire format *)
(* ===================================================================== *)

(** The protobuf runtime is a library of its own and not among the sources
    at hand.  The definitions below follow its Python implementation
    ([encoder.py], [decoder.py], [python_message.py], [type_checkers.py]) as
    far as the two messages of the synapse use it: checked assignment of
    [int32] and enum fields, varints, tagged fields without presence, and
    the parser's loop with the fields it does not know. *)

Module Protobuf.
Import Py.

(** [int2byte(n)] and [ord(b)]. *)
Definition int2byte (n : N) : byte :=
  match Byte.of_N n with Some b => b | None => x00 end.

Definition ord (b : byte) : N := Byte.to_N b.

(** *** Varints *)

(** The encoder's loop:
<<
    bits = value & 0x7f ; value >>= 7
    while value:
        write(int2byte(0x80 | bits)) ; bits = value & 0x7f ; value >>= 7
    write(int2byte(bits))
>>
    [fuel] bounds the iterations; [EncodeVarint] gives it the bit length of
    the value, which seven bits a turn never exhaust. *)
Fixpoint EncodeVarint_loop (fuel : nat) (value : N) : list byte :=
  let bits := N.land value 0x7f in
  let value' := N.shiftr value 7 in
  match fuel with
  | O => [int2byte bits]
  | S fuel' =>
      if (value' =? 0)%N then [int2byte bits]
      else int2byte (N.lor 0x80 bits) :: EncodeVarint_loop fuel' value'
  end.

Definition EncodeVarint (value : N) : list byte :=
  EncodeVarint_loop (N.to_nat (N.size value)) value.

(** [_SignedVarintEncoder]: a negative value is sent as its 64-bit two's
    complement. *)
Definition EncodeSignedVarint (value : Z) : list byte :=
  EncodeVarint (Z.to_N (if value <? 0 then value + Z.shiftl 1 64 else value)).

(** The decoder's loop; it gives up after ten bytes ([shift >= 64]) and on a
    buffer that ends inside a varint. *)
Fixpoint DecodeVarint_loop (res shift : N) (buffer : list byte)
  : result (N * list byte) :=
  match buffer with
  | [] => Raise DecodeError
  | b :: rest =>
      let res := N.lor res (N.shiftl (N.land (ord b) 0x7f) shift) in
      if (N.land (ord b) 0x80 =? 0)%N then Ok (res, rest)
      else
        let shift := (shift + 7)%N in
        if (64 <=? shift)%N then Raise DecodeError
        else DecodeVarint_loop res shift rest
  end.

(** [_VarintDecoder(mask)] *)
Definition DecodeVarint (mask : N) (buffer : list byte)
  : result (N * list byte) :=
  rbind (DecodeVarint_loop 0 0 buffer)
        (fun '(r, rest) => Ok (N.land r mask, rest)).

Definition _DecodeVarint := DecodeVarint (N.ones 64).

Definition _DecodeVarint32 := DecodeVarint (N.ones 32).

(** [_SignedVarintDecoder(bits)] *)
Definition DecodeSignedVarint (bits : N) (buffer : list byte)
  : result (Z * list byte) :=
  let signbit := Z.shiftl 1 (Z.of_N bits - 1) in
  let mask := N.ones bits in
  rbind (DecodeVarint_loop 0 0 buffer)
        (fun '(r, rest) =>
           Ok (Z.lxor (Z.of_N (N.land r mask)) signbit - signbit, rest)).

Definition _DecodeSignedVarint32 := DecodeSignedVarint 32.

(** *** Tags and fields *)

Definition WIRETYPE_VARINT : N := 0.
Definition WIRETYPE_FIXED64 : N := 1.
Definition WIRETYPE_LENGTH_DELIMITED : N := 2.
Definition WIRETYPE_START_GROUP : N := 3.
Definition WIRETYPE_END_GROUP : N := 4.
Definition WIRETYPE_FIXED32 : N := 5.

Definition PackTag (field_number wire_type : N) : N :=
  N.lor (N.shiftl field_number 3) wire_type.

Definition TagBytes (field_number wire_type : N) : list byte :=
  EncodeVarint (PackTag field_number wire_type).

(** [ReadTag]: the bytes of a tag, up to and with the first byte whose high
    bit is clear.  They are not decoded: the parser looks a field up by the
    bytes of its tag.  A buffer that ends inside the tag is an [IndexError],
    which [MergeFromString] turns into a [DecodeError]. *)
Fixpoint ReadTag (buffer : list byte) : result (list byte * list byte) :=
  match buffer with
  | [] => Raise DecodeError
  | b :: rest =>
      if (N.land (ord b) 0x80 =? 0)%N then Ok ([b], rest)
      else rbind (ReadTag rest)
                 (fun '(tag_bytes, rest') => Ok (b :: tag_bytes, rest'))
  end.

(** The two scalar types the synapse messages use.  The enums of a proto3
    file are open: an enum field is checked, written and read as an [int32]
    field is. *)
Inductive FieldType : Type := TYPE_INT32 | TYPE_ENUM.

(** The check made when a field is assigned ([Int32ValueChecker]): the value
    lies in [-2^31 .. 2^31-1]. *)
Definition in_range (ty : FieldType) (value : Z) : bool :=
  match ty with
  | TYPE_INT32 | TYPE_ENUM => (-2147483648 <=? value) && (value <=? 2147483647)
  end.

Definition CheckValue (ty : FieldType) (value : Z) : result Z :=
  if in_range ty value then Ok value
  else Raise (ValueError ("Value out of range: " ++ str_int value)).

Definition encode_value (ty : FieldType) (value : Z) : list byte :=
  match ty with
  | TYPE_INT32 | TYPE_ENUM => EncodeSignedVarint value
  end.

Definition decode_value (ty : FieldType) (buffer : list byte)
  : result (Z * list byte) :=
  match ty with
  | TYPE_INT32 | TYPE_ENUM => _DecodeSignedVarint32 buffer
  end.

(** A proto3 scalar field without presence: the default value is not sent. *)
Definition encode_field (field_number : N) (ty : FieldType) (value : Z)
  : list byte :=
  if value =? 0 then []
  else TagBytes field_number WIRETYPE_VARINT ++ encode_value ty value.

(** *** Fields the descriptor does not list *)

(** Stepping over [n] bytes; a buffer that holds fewer is refused. *)
Definition SkipBytes (n : nat) (buffer : list byte) : result (list byte) :=
  if (n <=? List.length buffer)%nat then Ok (skipn n buffer)
  else Raise DecodeError.

(** A slice [buffer[pos:pos+size]], which Python cuts at the end of the
    buffer. *)
Definition slice_off (size : N) (buffer : list byte) : list byte :=
  if (size <=? N.of_nat (List.length buffer))%N then skipn (N.to_nat size) buffer
  else [].

(** An unknown field is gone through twice: [_DecodeUnknownField] decodes it
    for the set of unknown fields, then [SkipField] steps over it.  Both
    return [-1] at an end-group tag, which is [None] here.  [group] is what
    either does with the fields of a group. *)
Definition DecodeUnknownField_of (group : list byte -> result (list byte))
           (wire_type : N) (buffer : list byte) : result (option (list byte)) :=
  match wire_type with
  | 0%N => rbind (_DecodeVarint buffer) (fun '(_, rest) => Ok (Some rest))
  | 1%N => rbind (SkipBytes 8 buffer) (fun rest => Ok (Some rest))
  | 2%N => rbind (_DecodeVarint buffer)
                 (fun '(size, rest) => Ok (Some (slice_off size rest)))
  | 3%N => rbind (group buffer) (fun rest => Ok (Some rest))
  | 4%N => Ok None
  | 5%N => rbind (SkipBytes 4 buffer) (fun rest => Ok (Some rest))
  | _ => Raise DecodeError
  end.

(** [_DecodeUnknownFieldSet]: the fields of a group, up to its end-group tag.
    Every turn reads a tag, so the length of the buffer is [fuel] enough;
    when it runs out the buffer is used up, and reading the next tag would
    raise as well. *)
Fixpoint _DecodeUnknownFieldSet (fuel : nat) (buffer : list byte)
  : result (list byte) :=
  match fuel with
  | O => Raise DecodeError
  | S fuel' =>
      rbind (ReadTag buffer) (fun '(tag_bytes, rest) =>
      rbind (_DecodeVarint tag_bytes) (fun '(tag, _) =>
        let wire_type := N.land tag 7 in
        if (wire_type =? WIRETYPE_END_GROUP)%N then Ok rest
        else
          rbind (DecodeUnknownField_of (_DecodeUnknownFieldSet fuel')
                                       wire_type rest)
                (fun r => match r with
                          | Some rest' => _DecodeUnknownFieldSet fuel' rest'
                          | None => Ok rest
                          end)))
  end.

Definition _DecodeUnknownField (wire_type : N) (buffer : list byte)
  : result (option (list byte)) :=
  DecodeUnknownField_of (_DecodeUnknownFieldSet (List.length buffer))
                        wire_type buffer.

(** [_SkipVarint] looks for the last byte of a varint without counting. *)
Fixpoint _SkipVarint (buffer : list byte) : result (list byte) :=
  match buffer with
  | [] => Raise DecodeError
  | b :: rest =>
      if (N.land (ord b) 0x80 =? 0)%N then Ok rest else _SkipVarint rest
  end.

Definition _SkipLengthDelimited (buffer : list byte) : result (list byte) :=
  rbind (_DecodeVarint32 buffer)
        (fun '(size, rest) =>
           if (size <=? N.of_nat (List.length rest))%N
           then Ok (skipn (N.to_nat size) rest)
           else Raise DecodeError).

Definition SkipField_of (group : list byte -> result (list byte))
           (wire_type : N) (buffer : list byte) : result (option (list byte)) :=
  match wire_type with
  | 0%N => rbind (_SkipVarint buffer) (fun rest => Ok (Some rest))
  | 1%N => rbind (SkipBytes 8 buffer) (fun rest => Ok (Some rest))
  | 2%N => rbind (_SkipLengthDelimited buffer) (fun rest => Ok (Some rest))
  | 3%N => rbind (group buffer) (fun rest => Ok (Some rest))
  | 4%N => Ok None
  | 5%N => rbind (SkipBytes 4 buffer) (fun rest => Ok (Some rest))
  | _ => Raise DecodeError
  end.

(** The wire type [SkipField] goes by: the low three bits of the first byte
    of the tag. *)
Definition tag_wire_type (tag_bytes : list byte) : N :=
  match tag_bytes with
  | b :: _ => N.land (ord b) 7
  | [] => 0%N
  end.

(** [_SkipGroup]: fields are stepped over until one of them is an end-group
    tag. *)
Fixpoint _SkipGroup (fuel : nat) (buffer : list byte) : result (list byte) :=
  match fuel with
  | O => Raise DecodeError
  | S fuel' =>
      rbind (ReadTag buffer) (fun '(tag_bytes, rest) =>
      rbind (SkipField_of (_SkipGroup fuel') (tag_wire_type tag_bytes) rest)
            (fun r => match r with
                      | Some rest' => _SkipGroup fuel' rest'
                      | None => Ok rest
                      end))
  end.

Definition SkipField (tag_bytes buffer : list byte)
  : result (option (list byte)) :=
  SkipField_of (_SkipGroup (List.length buffer)) (tag_wire_type tag_bytes) buffer.

(** *** Parsing a message *)

(** Equality of two byte strings, by which a dictionary keyed by tags is
    searched. *)
Fixpoint bytes_eqb (a b : list byte) : bool :=
  match a, b with
  | [], [] => true
  | x :: a', y :: b' => Byte.eqb x y && bytes_eqb a' b'
  | _, _ => false
  end.

Section Message.

(** The message class, its decoders ([_decoders_by_tag], keyed by the bytes
    of a tag; a decoder is given here by the number and the type of its
    field) and the assignment of a decoded value to a field. *)
Variable Msg : Type.
Variable decoders_by_tag : list byte -> option (N * FieldType).
Variable setfield : N -> Z -> Msg -> Msg.

(** [InternalParse]: read a tag, then the field it announces, until the
    buffer is used up; it returns early, with what is left of the buffer, at
    an end-group tag.  Every turn reads at least one byte, so
    [MergeFromString] runs the loop with the length of the buffer as
    [fuel]. *)
Fixpoint InternalParse (fuel : nat) (buffer : list byte) (msg : Msg)
  : result (Msg * list byte) :=
  match buffer with
  | [] => Ok (msg, [])
  | _ :: _ =>
      match fuel with
      | O => Raise DecodeError
      | S fuel' =>
          rbind (ReadTag buffer) (fun '(tag_bytes, rest) =>
            match decoders_by_tag tag_bytes with
            | Some (field_number, ty) =>
                rbind (decode_value ty rest) (fun '(value, rest') =>
                  InternalParse fuel' rest' (setfield field_number value msg))
            | None =>
                rbind (_DecodeVarint tag_bytes) (fun '(tag, _) =>
                  let field_number := N.shiftr tag 3 in
                  let wire_type := N.land tag 7 in
                  if (field_number =? 0)%N then Raise DecodeError
                  else
                    rbind (_DecodeUnknownField wire_type rest) (fun decoded =>
                      match decoded with
                      | None => Ok (msg, buffer)
                      | Some _ =>
                          rbind (SkipField tag_bytes rest) (fun skipped =>
                            match skipped with
                            | None => Ok (msg, buffer)
                            | Some rest' => InternalParse fuel' rest' msg
                            end)
                      end))
            end)
      end
  end.

(** [MergeFromString]: an early return of the loop is an unexpected end-group
    tag. *)
Definition MergeFromString (buffer : list byte) (msg : Msg) : result Msg :=
  rbind (InternalParse (List.length buffer) buffer msg)
        (fun '(msg', rest) =>
           match rest with
           | [] => Ok msg'
           | _ :: _ => Raise DecodeError
           end).

End Message.

End Protobuf.

(* ===================================================================== *)
(** ** bittensor.proto: the two messages the synapse exchanges *)
(* ===================================================================== *)

Module Proto.
Import Py Protobuf.

(** Modelled from the spec: the message [bittensor.proto.Synapse.TextSeq2Seq],
    whose [.proto] file and generated module are not part of the sources at
    hand.  The spec lists its six fields, two integers and four enums:
    [{topk, num_to_generate, forward_request_serializer_type,
    forward_response_serializer_type, backward_request_serializer_type,
    backward_response_serializer_type}].  On the wire the package declares
    [topk] and [num_to_generate] as [int32] (the spec writes [uint32]) with
    the field numbers 2 and 3, and the four serializer types as enum fields
    4 to 7: [TextSeq2Seq(topk = 512, num_to_generate = 10)] is sent as
    [10 80 04 18 0a], and [topk = -1] is a value of its field while
    [topk = 2^32 - 1] is not. *)
Record TextSeq2Seq : Type := mkTextSeq2Seq {
  topk : Z;
  num_to_generate : Z;
  forward_request_serializer_type : Z;
  forward_response_serializer_type : Z;
  backward_request_serializer_type : Z;
  backward_response_serializer_type : Z
}.

(** The six fields, by number. *)
Definition TextSeq2Seq_fields : list (N * FieldType) :=
  [(2%N, TYPE_INT32); (3%N, TYPE_INT32);
   (4%N, TYPE_ENUM); (5%N, TYPE_ENUM); (6%N, TYPE_ENUM); (7%N, TYPE_ENUM)].

(** A singular scalar field has one decoder, under the tag of its own wire
    type. *)
Definition TextSeq2Seq_decoders_by_tag (tag_bytes : list byte)
  : option (N * FieldType) :=
  find (fun '(field_number, _) =>
          bytes_eqb (TagBytes field_number WIRETYPE_VARINT) tag_bytes)
       TextSeq2Seq_fields.

Definition TextSeq2Seq_setfield (field_number : N) (value : Z) (m : TextSeq2Seq)
  : TextSeq2Seq :=
  match m with
  | mkTextSeq2Seq f2 f3 f4 f5 f6 f7 =>
      match field_number with
      | 2%N => mkTextSeq2Seq value f3 f4 f5 f6 f7
      | 3%N => mkTextSeq2Seq f2 value f4 f5 f6 f7
      | 4%N => mkTextSeq2Seq f2 f3 value f5 f6 f7
      | 5%N => mkTextSeq2Seq f2 f3 f4 value f6 f7
      | 6%N => mkTextSeq2Seq f2 f3 f4 f5 value f7
      | 7%N => mkTextSeq2Seq f2 f3 f4 f5 f6 value
      | _ => m
      end
  end.

(** [TextSeq2Seq()]: every field at its default. *)
Definition TextSeq2Seq_default : TextSeq2Seq := mkTextSeq2Seq 0 0 0 0 0 0.

(** [TextSeq2Seq(topk = ..., ...)]: each keyword argument is checked against
    the type of its field, in the order the arguments are written. *)
Definition TextSeq2Seq_new (f2 f3 f4 f5 f6 f7 : Z) : result TextSeq2Seq :=
  rbind (CheckValue TYPE_INT32 f2) (fun f2 =>
  rbind (CheckValue TYPE_INT32 f3) (fun f3 =>
  rbind (CheckValue TYPE_ENUM f4) (fun f4 =>
  rbind (CheckValue TYPE_ENUM f5) (fun f5 =>
  rbind (CheckValue TYPE_ENUM f6) (fun f6 =>
  rbind (CheckValue TYPE_ENUM f7) (fun f7 =>
  Ok (mkTextSeq2Seq f2 f3 f4 f5 f6 f7))))))).

(** [m.SerializeToString()]: the fields in the order of their numbers. *)
Definition SerializeToString (m : TextSeq2Seq) : list byte :=
  encode_field 2 TYPE_INT32 (topk m) ++
  encode_field 3 TYPE_INT32 (num_to_generate m) ++
  encode_field 4 TYPE_ENUM (forward_request_serializer_type m) ++
  encode_field 5 TYPE_ENUM (forward_response_serializer_type m) ++
  encode_field 6 TYPE_ENUM (backward_request_serializer_type m) ++
  encode_field 7 TYPE_ENUM (backward_response_serializer_type m).

(** [m = TextSeq2Seq(); m.ParseFromString(buffer)], giving [m]. *)
Definition ParseFromString (buffer : list byte) : result TextSeq2Seq :=
  MergeFromString TextSeq2Seq TextSeq2Seq_decoders_by_tag TextSeq2Seq_setfield
                  buffer TextSeq2Seq_default.

(** Every field holds a value of its type. *)
Definition well_typed (m : TextSeq2Seq) : Prop :=
  in_range TYPE_INT32 (topk m) = true /\
  in_range TYPE_INT32 (num_to_generate m) = true /\
  in_range TYPE_ENUM (forward_request_serializer_type m) = true /\
  in_range TYPE_ENUM (forward_response_serializer_type m) = true /\
  in_range TYPE_ENUM (backward_request_serializer_type m) = true /\
  in_range TYPE_ENUM (backward_response_serializer_type m) = true.

(** Modelled from the spec: the wire message [bittensor.proto.Synapse],
    [{synapse_type: uint32-enum, synapse_data: bytes, return_code:
    int32-enum, message: string}].  Both enums are open: they hold any
    [int32].  [message] is a text of characters below 256, each of them a
    character the field accepts. *)
Record Synapse : Type := mkSynapse {
  synapse_data : list byte;
  synapse_type : Z;
  return_code : Z;
  message : string
}.

(** [Synapse(synapse_data = ..., synapse_type = ..., return_code = ...,
    message = ...)] *)
Definition Synapse_new (data : list byte) (type code : Z) (msg : string)
  : result Synapse :=
  rbind (CheckValue TYPE_ENUM type) (fun type =>
  rbind (CheckValue TYPE_ENUM code) (fun code =>
  Ok (mkSynapse data type code msg))).

End Proto.

(* ===================================================================== *)
(** ** class TextSeq2Seq (Synapse) *)
(* ===================================================================== *)

Module TextSeq2Seq.
Import Py Torch.
Local Open Scope string_scope.
Local Open Scope Z_scope.
Local Open Scope py_scope.

(** The attributes of an instance. *)
Record t : Type := mk {
  synapse_type : Z;
  topk : Z;
  num_to_generate : Z;
  forward_request_serializer_type : Z;
  forward_response_serializer_type : Z;
  backward_request_serializer_type : Z;
  backward_response_serializer_type : Z
}.

Section Class.

(** Three constants of the package that the class reads and that are
    declared elsewhere: the tag
    [bittensor.proto.Synapse.SynapseType.TEXT_SEQ_2_SEQ], the format
    [bittensor.proto.Serializer.MSGPACK], and [bittensor.__vocab_size__]. *)
Variable TEXT_SEQ_2_SEQ : Z.
Variable MSGPACK : Z.
Variable vocab_size : Z.

(** Modelled from the spec: [Synapse.__init__] of [synapse_impl.py], which
    is not part of the sources at hand.  The spec lists the four
    serializer formats among the attributes of a variant, fixed at
    construction; the base initializer stores its four arguments.

    [__init__] then sets [topk], [num_to_generate] and [synapse_type]. *)
Definition __init__ (topk num_to_generate
                     forward_request_serializer_type
                     forward_response_serializer_type
                     backward_request_serializer_type
                     backward_response_serializer_type : Z) : t :=
  mk TEXT_SEQ_2_SEQ topk num_to_generate
     forward_request_serializer_type forward_response_serializer_type
     backward_request_serializer_type backward_response_serializer_type.

(** [TextSeq2Seq()], all arguments at their defaults. *)
Definition default : t := __init__ 512 512 MSGPACK MSGPACK MSGPACK MSGPACK.

Definition __str__ : method t string := ret "TextSeq2Seq".

Definition __repr__ : method t string := __str__.

(** Static method. *)
Definition deserialize_from_instance_proto (instance_proto : Proto.TextSeq2Seq)
  : result t :=
  Ok (__init__ (Proto.topk instance_proto)
               (Proto.num_to_generate instance_proto)
               (Proto.forward_request_serializer_type instance_proto)
               (Proto.forward_response_serializer_type instance_proto)
               (Proto.backward_request_serializer_type instance_proto)
               (Proto.backward_response_serializer_type instance_proto)).

(** Static method. *)
Definition deserialize_from_wire_proto (wire_proto : Proto.Synapse)
  : result t :=
  rbind (Proto.ParseFromString (Proto.synapse_data wire_proto))
        deserialize_from_instance_proto.

Definition serialize_to_instance_proto : method t Proto.TextSeq2Seq :=
  f1 <- getattr topk ;;
  f2 <- getattr num_to_generate ;;
  f3 <- getattr forward_request_serializer_type ;;
  f4 <- getattr forward_response_serializer_type ;;
  f5 <- getattr backward_request_serializer_type ;;
  f6 <- getattr backward_response_serializer_type ;;
  lift (Proto.TextSeq2Seq_new f1 f2 f3 f4 f5 f6).

Definition serialize_to_wire_proto (code : Z) (message : string)
  : method t Proto.Synapse :=
  instance_proto <- serialize_to_instance_proto ;;
  lift (Proto.Synapse_new (Proto.SerializeToString instance_proto)
                          TEXT_SEQ_2_SEQ code message).

Definition check_forward_request_tensor (forward_request_tensor : Tensor)
  : method t unit :=
  if negb (rank forward_request_tensor =? 2) then
    s <- __str__ ;;
    raise (ValueError
      ("forward_request_tensor.shape must be in [-1, -1], got: "
       ++ str_list (shape_list forward_request_tensor)
       ++ " for synapse: " ++ s))
  else ret tt.

Definition check_forward_response_tensor
           (forward_request_tensor forward_response_tensor : Tensor)
  : method t unit :=
  bad <- or_ (ret (negb (rank forward_response_tensor =? 2)))
        (or_ (a <- lift (size forward_response_tensor 0) ;;
              b <- lift (size forward_request_tensor 0) ;;
              ret (negb (a =? b)))
             (a <- lift (size forward_response_tensor 1) ;;
              n <- getattr num_to_generate ;;
              ret (a >? n))) ;;
  if bad : bool then
    d0 <- lift (size forward_request_tensor 0) ;;
    n <- getattr num_to_generate ;;
    s <- __str__ ;;
    raise (ValueError
      ("forward_response_tensor.shape must be in [" ++ str_int d0 ++ ", "
       ++ str_int n ++ "], got: "
       ++ str_list (shape_list forward_response_tensor)
       ++ " for synapse: " ++ s))
  else ret tt.

Definition check_backward_request_gradient
           (forward_request_tensor backward_request_gradient : Tensor)
  : method t unit :=
  if negb (if list_eq_dec Z.eq_dec (shape_list backward_request_gradient)
                          (shape_list forward_request_tensor)
           then true else false) then
    s <- __str__ ;;
    raise (ValueError
      ("backward_request_gradient.shape: "
       ++ str_list (shape_list backward_request_gradient)
       ++ " must be equivalent to forward_request_tensor.shape: "
       ++ str_list (shape_list forward_request_tensor)
       ++ " for synapse: " ++ s))
  else ret tt.

Definition encode_forward_request_tensor (forward_request_tensor : Tensor)
  : method t Tensor := ret forward_request_tensor.

Definition decode_forward_request_tensor (forward_request_tensor : Tensor)
  : method t Tensor := ret forward_request_tensor.

Definition encode_forward_response_tensor (forward_response_tensor : Tensor)
  : method t Tensor := ret forward_response_tensor.

Definition decode_forward_response_tensor (forward_response_tensor : Tensor)
  : method t Tensor := ret forward_response_tensor.

Definition encode_backward_request_gradient (backward_request_gradient : Tensor)
  : method t Tensor := ret backward_request_gradient.

Definition decode_backward_request_gradient (backward_request_gradient : Tensor)
  : method t Tensor := ret backward_request_gradient.

Definition nill_forward_response_tensor (forward_request_tensor : Tensor)
  : method t Tensor :=
  d0 <- lift (size forward_request_tensor 0) ;;
  d1 <- lift (size forward_request_tensor 1) ;;
  lift (zeros [d0; d1; vocab_size]).

Definition nill_backward_response_gradient (forward_request_tensor : Tensor)
  : method t Tensor :=
  d0 <- lift (size forward_request_tensor 0) ;;
  d1 <- lift (size forward_request_tensor 1) ;;
  d2 <- lift (size forward_request_tensor 2) ;;
  lift (zeros [d0; d1; d2]).

(** *** A caller's view: any sequence of calls on one instance *)

(** The public operations, each with its arguments. *)
Inductive op : Type :=
| Check_forward_request_tensor (forward_request_tensor : Tensor)
| Check_forward_response_tensor (forward_request_tensor forward_response_tensor : Tensor)
| Check_backward_request_gradient (forward_request_tensor backward_request_gradient : Tensor)
| Encode_forward_request_tensor (forward_request_tensor : Tensor)
| Decode_forward_request_tensor (forward_request_tensor : Tensor)
| Encode_forward_response_tensor (forward_response_tensor : Tensor)
| Decode_forward_response_tensor (forward_response_tensor : Tensor)
| Encode_backward_request_gradient (backward_request_gradient : Tensor)
| Decode_backward_request_gradient (backward_request_gradient : Tensor)
| Nill_forward_response_tensor (forward_request_tensor : Tensor)
| Nill_backward_response_gradient (forward_request_tensor : Tensor)
| Serialize_to_instance_proto
| Serialize_to_wire_proto (code : Z) (message : string)
| Str
| Repr.

(** What a call hands back. *)
Inductive value : Type :=
| VNone
| VTensor (x : Tensor)
| VInstanceProto (p : Proto.TextSeq2Seq)
| VWireProto (w : Proto.Synapse)
| VStr (s : string).

Definition call (o : op) : method t value :=
  match o with
  | Check_forward_request_tensor x =>
      _ <- check_forward_request_tensor x ;; ret VNone
  | Check_forward_response_tensor x y =>
      _ <- check_forward_response_tensor x y ;; ret VNone
  | Check_backward_request_gradient x y =>
      _ <- check_backward_request_gradient x y ;; ret VNone
  | Encode_forward_request_tensor x =>
      r <- encode_forward_request_tensor x ;; ret (VTensor r)
  | Decode_forward_request_tensor x =>
      r <- decode_forward_request_tensor x ;; ret (VTensor r)
  | Encode_forward_response_tensor x =>
      r <- encode_forward_response_tensor x ;; ret (VTensor r)
  | Decode_forward_response_tensor x =>
      r <- decode_forward_response_tensor x ;; ret (VTensor r)
  | Encode_backward_request_gradient x =>
      r <- encode_backward_request_gradient x ;; ret (VTensor r)
  | Decode_backward_request_gradient x =>
      r <- decode_backward_request_gradient x ;; ret (VTensor r)
  | Nill_forward_response_tensor x =>
      r <- nill_forward_response_tensor x ;; ret (VTensor r)
  | Nill_backward_response_gradient x =>
      r <- nill_backward_response_gradient x ;; ret (VTensor r)
  | Serialize_to_instance_proto =>
      r <- serialize_to_instance_proto ;; ret (VInstanceProto r)
  | Serialize_to_wire_proto code message =>
      r <- serialize_to_wire_proto code message ;; ret (VWireProto r)
  | Str => r <- __str__ ;; ret (VStr r)
  | Repr => r <- __repr__ ;; ret (VStr r)
  end.

(** The calls are made one after the other on the same object; a call that
    raises does not stop the caller from making the next one. *)
Fixpoint run (ops : list op) (self : t) : list (result value) * t :=
  match ops with
  | [] => ([], self)
  | o :: ops' =>
      let (r, self') := call o self in
      let (rs, self'') := run ops' self' in
      (r :: rs, self'')
  end.

End Class.

(** [t.size(i)] for a tensor that has dimension [i]. *)
Definition dim (x : Tensor) (i : nat) : Z := Z.of_N (nth i (shape x) 0%N).

(** A request the forward check has let through. *)
Definition validated (self : t) (forward_request_tensor : Tensor) : Prop :=
  fst (check_forward_request_tensor forward_request_tensor self) = Ok tt.

(** A method that leaves the attributes of its object as they were. *)
Definition readonly {A} (m : method t A) : Prop :=
  forall self, snd (m self) = self.

End TextSeq2Seq.

(* ===================================================================== *)
(** ** Concrete objects used in the examples *)
(* ===================================================================== *)

Module Scenario.
Import Py Torch.

(** Values for the three constants the class reads. *)
Definition TEXT_SEQ_2_SEQ : Z := 3.
Definition MSGPACK : Z := 0.
Definition vocab_size : Z := 50000.

(** [TextSeq2Seq(topk = 512, num_to_generate = 10)] *)
Definition synapse : TextSeq2Seq.t :=
  TextSeq2Seq.__init__ TEXT_SEQ_2_SEQ 512 10 MSGPACK MSGPACK MSGPACK MSGPACK.

(** [torch.ones(sz, dtype = torch.long)] for a size without negative entry. *)
Definition ones (sz : list N) : Tensor :=
  mkTensor sz int64 (repeat (SInt 1) (N.to_nat (numel sz))).

(** The payload the synapse above is sent as: [topk = 512] (field 2) and
    [num_to_generate = 10] (field 3); the serializer types are 0 and are not
    sent. *)
Definition payload : list byte := [x10; x80; x04; x18; x0a].

Definition wire : Proto.Synapse :=
  Proto.mkSynapse payload TEXT_SEQ_2_SEQ 1 "Success".

(** [TextSeq2Seq(topk = 2**32)]: the constructor takes any integer. *)
Definition oversized : TextSeq2Seq.t :=
  TextSeq2Seq.__init__ TEXT_SEQ_2_SEQ (2 ^ 32) 512 MSGPACK MSGPACK MSGPACK MSGPACK.

(** [TextSeq2Seq(-1, -1, -1, -1, -1, -1)]: every attribute at its longest
    encoding. *)
Definition negative : TextSeq2Seq.t :=
  TextSeq2Seq.__init__ TEXT_SEQ_2_SEQ (-1) (-1) (-1) (-1) (-1) (-1).

(** A synapse that allows no token at all. *)
Definition refusing : TextSeq2Seq.t :=
  TextSeq2Seq.__init__ TEXT_SEQ_2_SEQ 512 (-1) MSGPACK MSGPACK MSGPACK MSGPACK.

End Scenario.

(* ===================================================================== *)
(** ** The instance schema, seen from the class *)
(* ===================================================================== *)

Module Schema.
Import Protobuf.

(** The attributes of an instance are values of the fields they are sent
    in. *)
Definition fits (v : TextSeq2Seq.t) : Prop :=
  in_range TYPE_INT32 (TextSeq2Seq.topk v) = true /\
  in_range TYPE_INT32 (TextSeq2Seq.num_to_generate v) = true /\
  in_range TYPE_ENUM (TextSeq2Seq.forward_request_serializer_type v) = true /\
  in_range TYPE_ENUM (TextSeq2Seq.forward_response_serializer_type v) = true /\
  in_range TYPE_ENUM (TextSeq2Seq.backward_request_serializer_type v) = true /\
  in_range TYPE_ENUM (TextSeq2Seq.backward_response_serializer_type v) = true.

(** The message [serialize_to_instance_proto] builds from an instance. *)
Definition instance_proto (v : TextSeq2Seq.t) : Proto.TextSeq2Seq :=
  Proto.mkTextSeq2Seq
    (TextSeq2Seq.topk v) (TextSeq2Seq.num_to_generate v)
    (TextSeq2Seq.forward_request_serializer_type v)
    (TextSeq2Seq.forward_response_serializer_type v)
    (TextSeq2Seq.backward_request_serializer_type v)
    (TextSeq2Seq.backward_response_serializer_type v).

(** An instance, a tag and a return code that the two messages can hold. *)
Definition sendable (TEXT_SEQ_2_SEQ : Z) (v : TextSeq2Seq.t) (code : Z) : Prop :=
  fits v /\
  in_range TYPE_ENUM TEXT_SEQ_2_SEQ = true /\
  in_range TYPE_ENUM code = true.

End Schema.

(* ===================================================================== *)
(** ** text_last_hidden_state/example.py: a synapse that returns zeros *)
(* ===================================================================== *)

Module Example.
Import Py Torch.
Local Open Scope py_scope.

(** [self.attr = ...] and the object itself, for methods that write. *)
Definition setattr {S} (update : S -> S) : method S unit :=
  fun self => (Ok tt, update self).

Definition this {S} : method S S := fun self => (Ok self, self).

(** [t.shape[i]]: indexing a [torch.Size], as a tuple is indexed. *)
Definition shape_getitem (x : Tensor) (i : Z) : result Z :=
  let n := Z.of_nat (List.length (shape x)) in
  if (- n <=? i) && (i <? n)
  then Ok (Z.of_N (nth (Z.to_nat (if i <? 0 then i + n else i)) (shape x) 0%N))
  else Raise IndexError.

(** The two attributes of a [TextLastHiddenStateForwardCall] that the example
    reads and writes; [hidden_states] is [None] until a value is assigned. *)
Record ForwardCall : Type := mkForwardCall {
  text_inputs : Tensor;
  hidden_states : option Tensor
}.

Section Synapse.

(** [bittensor.__network_dim__], declared elsewhere in the package. *)
Variable network_dim : Z.

(** The methods of the example's [Synapse]; the object they act on is the
    [forward_call] they are handed. *)
Definition priority : method ForwardCall spec_float := ret (S754_zero false).

Definition blacklist : method ForwardCall bool := ret false.

(** [torch.zeros(a, b, c)] has the default dtype, [float32]. *)
Definition forward : method ForwardCall ForwardCall :=
  x0 <- getattr text_inputs ;;
  d0 <- lift (shape_getitem x0 0) ;;
  x1 <- getattr text_inputs ;;
  d1 <- lift (shape_getitem x1 1) ;;
  z <- lift (zeros [d0; d1; network_dim]) ;;
  _ <- setattr (fun c => mkForwardCall (text_inputs c) (Some z)) ;;
  this.

End Synapse.

End Example.

(* ===================================================================== *)
(** * Properties *)
(* ===================================================================== *)

(** ** The wire format: what is written is what is read *)

Module ProtobufFacts.
Import Py Protobuf.

Section Bytes.
Local Open Scope N_scope.

Lemma ord_int2byte n : n < 256 -> ord (int2byte n) = n.
Proof.
  intros Hn. unfold ord, int2byte.
  destruct (Byte.of_N n) as [b|] eqn:E.
  - now apply Byte.to_of_N.
  - apply Byte.of_N_None_iff in E. lia.
Qed.

Lemma land_127_lt v : N.land v 127 < 128.
Proof.
  change 127 with (N.ones 7). rewrite N.land_ones.
  apply N.mod_lt. discriminate.
Qed.

Lemma land_127_small v : v < 128 -> N.land v 127 = v.
Proof.
  intros. change 127 with (N.ones 7). rewrite N.land_ones.
  now apply N.mod_small.
Qed.

Lemma land_127_128 v : N.land (N.land v 127) 128 = 0.
Proof. now rewrite <- N.land_assoc, N.land_0_r. Qed.

Lemma land_lor_128_127 v : N.land (N.lor 128 (N.land v 127)) 127 = N.land v 127.
Proof.
  rewrite N.land_lor_distr_l, <- N.land_assoc, N.land_diag.
  reflexivity.
Qed.

Lemma land_lor_128_128 v : N.land (N.lor 128 (N.land v 127)) 128 = 128.
Proof.
  rewrite N.land_lor_distr_l, land_127_128. reflexivity.
Qed.

Lemma lor_128_lt v : N.lor 128 (N.land v 127) < 256.
Proof.
  destruct (N.eq_dec (N.land v 127) 0) as [->|Hne]; [reflexivity|].
  apply N.log2_lt_pow2 with (b := 8).
  - destruct (N.lor 128 (N.land v 127)) eqn:E; [|lia].
    apply N.lor_eq_0_l in E. discriminate.
  - rewrite N.log2_lor. apply N.max_lub_lt; [reflexivity|].
    apply N.log2_lt_pow2; [lia|]. pose proof (land_127_lt v). change (2^8) with 256. lia.
Qed.

Lemma split_low7 v : N.lor (N.land v 127) (N.shiftl (N.shiftr v 7) 7) = v.
Proof.
  change 127 with (N.ones 7). rewrite <- N.ldiff_ones_r, N.lor_comm.
  apply N.lor_ldiff_and.
Qed.

Lemma shiftr7_0 v : N.shiftr v 7 = 0 <-> v < 128.
Proof.
  rewrite N.shiftr_div_pow2. change (2^7) with 128.
  split; intros H.
  - apply N.div_small_iff in H; [exact H | discriminate].
  - now apply N.div_small.
Qed.

End Bytes.

Section Varint.
Local Open Scope N_scope.

Lemma last_byte v r s rest :
  v < 128 ->
  DecodeVarint_loop r s (int2byte (N.land v 127) :: rest)
  = Ok (N.lor r (N.shiftl v s), rest).
Proof.
  intros Hv. cbn [DecodeVarint_loop].
  rewrite ord_int2byte by (pose proof (land_127_lt v); lia).
  rewrite land_127_128. cbn [N.eqb].
  rewrite <- N.land_assoc, N.land_diag, (land_127_small v Hv). reflexivity.
Qed.

Lemma shift_bound v s : 128 <= v -> v * 2 ^ s < 2 ^ 64 -> s + 7 < 64.
Proof.
  intros Hv Hs.
  apply (N.pow_lt_mono_r_iff 2); [lia|].
  rewrite N.pow_add_r. change (2 ^ 7) with 128.
  assert (0 < 2 ^ s) by (apply N.neq_0_lt_0, N.pow_nonzero; discriminate).
  nia.
Qed.

Lemma Decode_Encode_loop fuel : forall v r s rest,
  v < 2 ^ (7 * (N.of_nat fuel + 1)) ->
  v * 2 ^ s < 2 ^ 64 ->
  DecodeVarint_loop r s (EncodeVarint_loop fuel v ++ rest)
  = Ok (N.lor r (N.shiftl v s), rest).
Proof.
  induction fuel as [|fuel IH]; intros v r s rest Hfuel Hs.
  - cbn [EncodeVarint_loop app]. apply last_byte. exact Hfuel.
  - cbn [EncodeVarint_loop].
    destruct (N.eqb_spec (N.shiftr v 7) 0) as [E|E].
    + apply last_byte. now apply shiftr7_0.
    + assert (Hv : 128 <= v).
      { destruct (N.lt_ge_cases v 128) as [H|H]; [|exact H].
        apply shiftr7_0 in H. contradiction. }
      cbn [app DecodeVarint_loop].
      rewrite ord_int2byte by apply lor_128_lt.
      rewrite land_lor_128_128, land_lor_128_127. cbn [N.eqb Pos.eqb].
      pose proof (shift_bound v s Hv Hs) as Hb.
      destruct (N.leb_spec 64 (s + 7)) as [H|_]; [lia|].
      assert (Hdiv : N.shiftr v 7 * 128 <= v).
      { rewrite N.shiftr_div_pow2. change (2 ^ 7) with 128.
        rewrite N.mul_comm. apply N.Div0.mul_div_le. }
      rewrite IH.
      * rewrite <- N.lor_assoc. f_equal. f_equal.
        rewrite (N.add_comm s 7), <- (N.shiftl_shiftl _ 7 s), <- N.shiftl_lor.
        now rewrite split_low7.
      * rewrite N.shiftr_div_pow2. apply N.Div0.div_lt_upper_bound.
        rewrite <- N.pow_add_r.
        replace (7 + 7 * (N.of_nat fuel + 1)) with (7 * (N.of_nat (S fuel) + 1)) by lia.
        exact Hfuel.
      * rewrite N.pow_add_r. change (2 ^ 7) with 128.
        assert (0 < 2 ^ s) by (apply N.neq_0_lt_0, N.pow_nonzero; discriminate).
        nia.
Qed.

Lemma Decode_Encode v rest :
  v < 2 ^ 64 ->
  DecodeVarint_loop 0 0 (EncodeVarint v ++ rest) = Ok (v, rest).
Proof.
  intros Hv. unfold EncodeVarint.
  rewrite Decode_Encode_loop.
  - now rewrite N.lor_0_l, N.shiftl_0_r.
  - rewrite N2Nat.id. eapply N.lt_le_trans; [apply N.size_gt|].
    apply N.pow_le_mono_r; lia.
  - now rewrite N.pow_0_r, N.mul_1_r.
Qed.

Lemma shiftr7_lt_pow v k :
  v < 2 ^ (7 * (k + 1 + 1)) -> N.shiftr v 7 < 2 ^ (7 * (k + 1)).
Proof.
  intros H. rewrite N.shiftr_div_pow2. apply N.Div0.div_lt_upper_bound.
  rewrite <- N.pow_add_r.
  replace (7 + 7 * (k + 1)) with (7 * (k + 1 + 1)) by lia. exact H.
Qed.

Lemma size_adequate v : v < 2 ^ (7 * (N.of_nat (N.to_nat (N.size v)) + 1)).
Proof.
  rewrite N2Nat.id. eapply N.lt_le_trans; [apply N.size_gt|].
  apply N.pow_le_mono_r; lia.
Qed.

(** What [EncodeVarint] writes is one tag to [ReadTag]. *)
Lemma ReadTag_Encode_loop fuel : forall v rest,
  v < 2 ^ (7 * (N.of_nat fuel + 1)) ->
  ReadTag (EncodeVarint_loop fuel v ++ rest)
  = Ok (EncodeVarint_loop fuel v, rest).
Proof.
  assert (Last : forall v rest,
             ReadTag (int2byte (N.land v 127) :: rest)
             = Ok ([int2byte (N.land v 127)], rest)).
  { intros v rest. cbn [ReadTag].
    rewrite ord_int2byte by (pose proof (land_127_lt v); lia).
    now rewrite land_127_128. }
  induction fuel as [|fuel IH]; intros v rest Hfuel; cbn [EncodeVarint_loop].
  - apply Last.
  - destruct (N.eqb_spec (N.shiftr v 7) 0) as [E|E]; [apply Last|].
    cbn [app ReadTag].
    rewrite ord_int2byte by apply lor_128_lt.
    rewrite land_lor_128_128. cbn [N.eqb Pos.eqb].
    rewrite IH; [reflexivity|]. apply shiftr7_lt_pow.
    replace (N.of_nat fuel + 1 + 1) with (N.of_nat (S fuel) + 1) by lia.
    exact Hfuel.
Qed.

Lemma ReadTag_TagBytes n wt rest :
  ReadTag (TagBytes n wt ++ rest) = Ok (TagBytes n wt, rest).
Proof. apply ReadTag_Encode_loop, size_adequate. Qed.

End Varint.

Section Values.

Lemma lxor_signbit_low y : 0 <= y < 2 ^ 31 -> Z.lxor y (2 ^ 31) = y + 2 ^ 31.
Proof.
  intros Hy. symmetry. apply Z.add_nocarry_lxor.
  apply Z.bits_inj'. intros i Hi.
  rewrite Z.land_spec, Z.bits_0, Z.pow2_bits_eqb by lia.
  destruct (Z.eqb_spec 31 i) as [<-|]; [|apply andb_false_r].
  rewrite andb_true_r.
  destruct (Z.eq_dec y 0) as [->|Hne]; [apply Z.bits_0|].
  apply Z.bits_above_log2; [lia|]. apply Z.log2_lt_pow2; lia.
Qed.

Lemma sign_fold v :
  - 2 ^ 31 <= v < 2 ^ 31 ->
  Z.lxor (v mod 2 ^ 32) (2 ^ 31) - 2 ^ 31 = v.
Proof.
  intros Hv. destruct (Z.lt_ge_cases v 0) as [Hneg|Hpos].
  - replace (v mod 2 ^ 32) with ((v + 2 ^ 31) + 2 ^ 31).
    + rewrite <- (lxor_signbit_low (v + 2 ^ 31)) by lia.
      rewrite Z.lxor_assoc, Z.lxor_nilpotent, Z.lxor_0_r. lia.
    + apply Z.mod_unique with (q := -1); lia.
  - rewrite Z.mod_small by lia. rewrite lxor_signbit_low by lia. lia.
Qed.

Lemma in_range_int32 ty v : in_range ty v = true <-> - 2 ^ 31 <= v < 2 ^ 31.
Proof.
  destruct ty; unfold in_range; rewrite andb_true_iff, Z.leb_le, Z.leb_le; lia.
Qed.

Lemma DecodeSignedVarint32_Encode v rest :
  - 2 ^ 31 <= v < 2 ^ 31 ->
  _DecodeSignedVarint32 (EncodeSignedVarint v ++ rest) = Ok (v, rest).
Proof.
  intros Hr.
  unfold _DecodeSignedVarint32, DecodeSignedVarint, EncodeSignedVarint.
  change (Z.shiftl 1 64) with (2 ^ 64).
  change (Z.shiftl 1 (Z.of_N 32 - 1)) with (2 ^ 31).
  rewrite Decode_Encode by (destruct (Z.ltb_spec v 0); lia).
  cbn [rbind]. rewrite N.land_ones, N2Z.inj_mod.
  change (Z.of_N (2 ^ 32)) with (2 ^ 32).
  rewrite Z2N.id by (destruct (Z.ltb_spec v 0); lia).
  assert (Hm : (if v <? 0 then v + 2 ^ 64 else v) mod 2 ^ 32 = v mod 2 ^ 32).
  { destruct (v <? 0); [|reflexivity].
    change (2 ^ 64) with (2 ^ 32 * 2 ^ 32). apply Z.mod_add. lia. }
  rewrite Hm, sign_fold by lia. reflexivity.
Qed.

Lemma decode_encode_value ty v rest :
  in_range ty v = true ->
  decode_value ty (encode_value ty v ++ rest) = Ok (v, rest).
Proof.
  intros Hr. apply in_range_int32 in Hr.
  destruct ty; cbn [decode_value encode_value];
    now apply DecodeSignedVarint32_Encode.
Qed.

End Values.

Section Lengths.
Local Open Scope N_scope.

Lemma EncodeVarint_nonempty v : (1 <= List.length (EncodeVarint v))%nat.
Proof.
  unfold EncodeVarint. destruct (N.to_nat (N.size v)); cbn [EncodeVarint_loop].
  - cbn. lia.
  - destruct (N.shiftr v 7 =? 0); cbn [List.length]; lia.
Qed.

Lemma EncodeVarint_loop_length fuel : forall v (k : nat),
  v < 2 ^ (7 * (N.of_nat k + 1)) ->
  (List.length (EncodeVarint_loop fuel v) <= S k)%nat.
Proof.
  induction fuel as [|fuel IH]; intros v k Hk; cbn [EncodeVarint_loop].
  - cbn. lia.
  - destruct (N.eqb_spec (N.shiftr v 7) 0) as [E|E]; [cbn; lia|].
    cbn [List.length].
    destruct k as [|k].
    + exfalso. apply E, shiftr7_0. exact Hk.
    + apply le_n_S, IH, shiftr7_lt_pow.
      replace (N.of_nat k + 1 + 1) with (N.of_nat (S k) + 1) by lia. exact Hk.
Qed.

Lemma EncodeVarint_length v (k : nat) :
  v < 2 ^ (7 * (N.of_nat k + 1)) -> (List.length (EncodeVarint v) <= S k)%nat.
Proof. apply EncodeVarint_loop_length. Qed.

End Lengths.

Section Parse.

Variable Msg : Type.
Variable decoders_by_tag : list byte -> option (N * FieldType).
Variable setfield : N -> Z -> Msg -> Msg.

Lemma InternalParse_nil fuel msg :
  InternalParse Msg decoders_by_tag setfield fuel [] msg = Ok (msg, []).
Proof. destruct fuel; reflexivity. Qed.

(** One field of the serializer, read back: the loop takes one turn for a
    field that was sent and none for a field left out, and the fuel that is
    left still covers the rest of the buffer. *)
Lemma InternalParse_field fuel n ty v rest msg :
  decoders_by_tag (TagBytes n WIRETYPE_VARINT) = Some (n, ty) ->
  in_range ty v = true ->
  (List.length (encode_field n ty v ++ rest) <= fuel)%nat ->
  exists fuel',
    (List.length rest <= fuel')%nat /\
    InternalParse Msg decoders_by_tag setfield fuel
      (encode_field n ty v ++ rest) msg
    = InternalParse Msg decoders_by_tag setfield fuel' rest
        (if v =? 0 then msg else setfield n v msg).
Proof.
  intros Hdec Hr Hfuel. unfold encode_field in *.
  destruct (v =? 0); [exists fuel; auto|].
  rewrite <- app_assoc in *. rewrite !length_app in Hfuel.
  pose proof (EncodeVarint_nonempty (PackTag n WIRETYPE_VARINT)) as Htag.
  fold (TagBytes n WIRETYPE_VARINT) in Htag.
  destruct fuel as [|fuel]; [lia|].
  exists fuel. split; [lia|].
  destruct (TagBytes n WIRETYPE_VARINT ++ encode_value ty v ++ rest)
    as [|b buffer] eqn:Ebuf.
  { apply (f_equal (@List.length byte)) in Ebuf.
    rewrite length_app in Ebuf. cbn [List.length] in Ebuf. lia. }
  cbn [InternalParse]. rewrite <- Ebuf.
  rewrite ReadTag_TagBytes. cbn [rbind]. rewrite Hdec.
  rewrite decode_encode_value by exact Hr. reflexivity.
Qed.

End Parse.

Section Messages.

Lemma TextSeq2Seq_decoders_by_tag_field n ty :
  In (n, ty) Proto.TextSeq2Seq_fields ->
  Proto.TextSeq2Seq_decoders_by_tag (TagBytes n WIRETYPE_VARINT) = Some (n, ty).
Proof.
  cbn [Proto.TextSeq2Seq_fields In].
  intros [E|[E|[E|[E|[E|[E|[]]]]]]]; injection E as <- <-;
    vm_compute; reflexivity.
Qed.

Ltac read_field H :=
  match goal with
  | L : (List.length (encode_field ?n ?ty ?v ++ ?rest) <= ?fuel)%nat
    |- context [InternalParse ?M ?d ?s ?fuel (encode_field ?n ?ty ?v ++ ?rest) ?msg] =>
      let fuel' := fresh "fuel" in
      let L' := fresh "L" in
      let E := fresh "E" in
      destruct (InternalParse_field M d s fuel n ty v rest msg
                  (TextSeq2Seq_decoders_by_tag_field n ty
                     ltac:(cbn [Proto.TextSeq2Seq_fields In]; tauto))
                  H L)
        as (fuel' & L' & E);
      rewrite E; clear E L
  end.

(** The payload of a message, read back from the empty message: the loop
    ends on the message that was sent, with fuel left for what follows. *)
Lemma InternalParse_SerializeToString fuel p rest :
  Proto.well_typed p ->
  (List.length (Proto.SerializeToString p ++ rest) <= fuel)%nat ->
  exists fuel',
    (List.length rest <= fuel')%nat /\
    InternalParse Proto.TextSeq2Seq Proto.TextSeq2Seq_decoders_by_tag
      Proto.TextSeq2Seq_setfield fuel (Proto.SerializeToString p ++ rest)
      Proto.TextSeq2Seq_default
    = InternalParse Proto.TextSeq2Seq Proto.TextSeq2Seq_decoders_by_tag
        Proto.TextSeq2Seq_setfield fuel' rest p.
Proof.
  destruct p as [f2 f3 f4 f5 f6 f7].
  intros (H2 & H3 & H4 & H5 & H6 & H7) L. cbn in H2, H3, H4, H5, H6, H7.
  unfold Proto.SerializeToString in *.
  cbn [Proto.topk Proto.num_to_generate Proto.forward_request_serializer_type
       Proto.forward_response_serializer_type Proto.backward_request_serializer_type
       Proto.backward_response_serializer_type] in *.
  rewrite <- !app_assoc in *.
  read_field H2. read_field H3. read_field H4.
  read_field H5. read_field H6. read_field H7.
  match goal with
  | L : (List.length rest <= ?fuel')%nat |- _ => exists fuel'; split; [exact L|]
  end.
  f_equal. unfold Proto.TextSeq2Seq_default.
  destruct (Z.eqb_spec f2 0), (Z.eqb_spec f3 0), (Z.eqb_spec f4 0),
           (Z.eqb_spec f5 0), (Z.eqb_spec f6 0), (Z.eqb_spec f7 0);
    subst; reflexivity.
Qed.

Lemma ParseFromString_SerializeToString p :
  Proto.well_typed p ->
  Proto.ParseFromString (Proto.SerializeToString p) = Ok p.
Proof.
  intros H. unfold Proto.ParseFromString, MergeFromString.
  rewrite <- (app_nil_r (Proto.SerializeToString p)).
  destruct (InternalParse_SerializeToString _ p [] H (le_n _)) as (fuel & _ & ->).
  now rewrite InternalParse_nil.
Qed.

Lemma CheckValue_ok ty v : in_range ty v = true -> CheckValue ty v = Ok v.
Proof. unfold CheckValue. now intros ->. Qed.

End Messages.

End ProtobufFacts.

(** ** The parser's fuel *)

(** The loops of the parser are bounded by the length of the buffer they are
    given.  Every turn of a loop reads at least one byte, so that bound is
    never the reason a loop stops: any larger one gives the same result. *)

Module FuelFacts.
Import Py Protobuf ProtobufFacts.

Tactic Notation "ok_inv" hyp(H) "as" simple_intropattern(p) ident(E) :=
  match type of H with
  | rbind ?r _ = Ok _ =>
      destruct r as [p|?] eqn:E; cbn [rbind] in H; [..|discriminate H]
  end.

Lemma ReadTag_consumes buffer : forall tag_bytes rest,
  ReadTag buffer = Ok (tag_bytes, rest) ->
  (List.length rest < List.length buffer)%nat.
Proof.
  induction buffer as [|b buffer IH]; intros tag_bytes rest H; cbn [ReadTag] in H.
  - discriminate.
  - destruct (N.land (ord b) 128 =? 0)%N.
    + injection H as _ <-. cbn. lia.
    + destruct (ReadTag buffer) as [[t r]|]; cbn [rbind] in H; [|discriminate].
      injection H as _ <-. specialize (IH t r eq_refl). cbn. lia.
Qed.

Lemma DecodeVarint_loop_consumes buffer : forall r s x rest,
  DecodeVarint_loop r s buffer = Ok (x, rest) ->
  (List.length rest < List.length buffer)%nat.
Proof.
  induction buffer as [|b buffer IH]; intros r s x rest H; cbn in H.
  - discriminate.
  - destruct (N.land (ord b) 128 =? 0)%N.
    + injection H as _ <-. cbn. lia.
    + destruct (64 <=? s + 7)%N; [discriminate|].
      apply IH in H. cbn. lia.
Qed.

Lemma DecodeVarint_consumes mask buffer x rest :
  DecodeVarint mask buffer = Ok (x, rest) ->
  (List.length rest < List.length buffer)%nat.
Proof.
  unfold DecodeVarint. intros H. ok_inv H as [r rest'] E.
  injection H as _ <-. eapply DecodeVarint_loop_consumes; eauto.
Qed.

Lemma decode_value_consumes ty buffer v rest :
  decode_value ty buffer = Ok (v, rest) ->
  (List.length rest < List.length buffer)%nat.
Proof.
  destruct ty; cbn [decode_value];
    unfold _DecodeSignedVarint32, DecodeSignedVarint; intros H;
    ok_inv H as [r rest'] E; injection H as _ <-;
    eapply DecodeVarint_loop_consumes; eauto.
Qed.

Lemma SkipBytes_consumes n buffer rest :
  SkipBytes n buffer = Ok rest -> (List.length rest <= List.length buffer)%nat.
Proof.
  unfold SkipBytes. destruct (Nat.leb n (List.length buffer)); [|discriminate].
  intros H. injection H as <-. rewrite length_skipn. lia.
Qed.

Lemma slice_off_length size buffer :
  (List.length (slice_off size buffer) <= List.length buffer)%nat.
Proof.
  unfold slice_off. destruct (size <=? N.of_nat (List.length buffer))%N.
  - rewrite length_skipn. lia.
  - cbn. lia.
Qed.

Lemma _SkipVarint_consumes buffer : forall rest,
  _SkipVarint buffer = Ok rest -> (List.length rest < List.length buffer)%nat.
Proof.
  induction buffer as [|b buffer IH]; intros rest H; cbn in H.
  - discriminate.
  - destruct (N.land (ord b) 128 =? 0)%N.
    + injection H as <-. cbn. lia.
    + apply IH in H. cbn. lia.
Qed.

Lemma _SkipLengthDelimited_consumes buffer rest :
  _SkipLengthDelimited buffer = Ok rest ->
  (List.length rest < List.length buffer)%nat.
Proof.
  unfold _SkipLengthDelimited, _DecodeVarint32. intros H.
  ok_inv H as [size rest'] E. apply DecodeVarint_consumes in E.
  destruct (size <=? N.of_nat (List.length rest'))%N; [|discriminate].
  injection H as <-. rewrite length_skipn. lia.
Qed.

(** A group is left shorter than it was found, whatever the fuel. *)
Definition shortens (group : list byte -> result (list byte)) : Prop :=
  forall buffer rest,
    group buffer = Ok rest -> (List.length rest <= List.length buffer)%nat.

Lemma DecodeUnknownField_of_consumes group wire_type buffer rest :
  shortens group ->
  DecodeUnknownField_of group wire_type buffer = Ok (Some rest) ->
  (List.length rest <= List.length buffer)%nat.
Proof.
  intros G H. unfold DecodeUnknownField_of in H.
  destruct wire_type as [|[[[]|[]|]|[[]|[]|]|]]; try discriminate;
    ok_inv H as p E;
    first [ injection H as <-;
            first [ now apply SkipBytes_consumes in E | now apply G in E ]
          | destruct p as [x rest']; injection H as <-;
            apply DecodeVarint_consumes in E;
            pose proof (slice_off_length x rest'); lia ].
Qed.

Lemma SkipField_of_consumes group wire_type buffer rest :
  shortens group ->
  SkipField_of group wire_type buffer = Ok (Some rest) ->
  (List.length rest <= List.length buffer)%nat.
Proof.
  intros G H. unfold SkipField_of in H.
  destruct wire_type as [|[[[]|[]|]|[[]|[]|]|]]; try discriminate;
    ok_inv H as p E; injection H as <-;
    first [ apply _SkipVarint_consumes in E; lia
          | apply _SkipLengthDelimited_consumes in E; lia
          | now apply SkipBytes_consumes in E
          | now apply G in E ].
Qed.

Lemma _DecodeUnknownFieldSet_shortens fuel : shortens (_DecodeUnknownFieldSet fuel).
Proof.
  induction fuel as [|fuel IH]; intros buffer rest H;
    cbn [_DecodeUnknownFieldSet] in H; [discriminate|].
  ok_inv H as [tag_bytes rest0] E. apply ReadTag_consumes in E.
  ok_inv H as [tag unused] E0.
  destruct (N.land tag 7 =? WIRETYPE_END_GROUP)%N.
  - injection H as <-. lia.
  - ok_inv H as [rest'|] E1.
    + apply DecodeUnknownField_of_consumes in E1; [|exact IH].
      apply IH in H. lia.
    + injection H as <-. lia.
Qed.

Lemma _SkipGroup_shortens fuel : shortens (_SkipGroup fuel).
Proof.
  induction fuel as [|fuel IH]; intros buffer rest H;
    cbn [_SkipGroup] in H; [discriminate|].
  ok_inv H as [tag_bytes rest0] E. apply ReadTag_consumes in E.
  ok_inv H as [rest'|] E0.
  - apply SkipField_of_consumes in E0; [|exact IH].
    apply IH in H. lia.
  - injection H as <-. lia.
Qed.

Lemma SkipField_consumes tag_bytes buffer rest :
  SkipField tag_bytes buffer = Ok (Some rest) ->
  (List.length rest <= List.length buffer)%nat.
Proof. apply SkipField_of_consumes, _SkipGroup_shortens. Qed.

(** Two ways to go through a group that agree on every buffer no longer than
    the one at hand give the same field. *)
Lemma DecodeUnknownField_of_ext group1 group2 wire_type buffer :
  group1 buffer = group2 buffer ->
  DecodeUnknownField_of group1 wire_type buffer
  = DecodeUnknownField_of group2 wire_type buffer.
Proof.
  intros E. unfold DecodeUnknownField_of.
  destruct wire_type as [|[[[]|[]|]|[[]|[]|]|]]; try reflexivity. now rewrite E.
Qed.

Lemma SkipField_of_ext group1 group2 wire_type buffer :
  group1 buffer = group2 buffer ->
  SkipField_of group1 wire_type buffer = SkipField_of group2 wire_type buffer.
Proof.
  intros E. unfold SkipField_of.
  destruct wire_type as [|[[[]|[]|]|[[]|[]|]|]]; try reflexivity. now rewrite E.
Qed.

(** The length of the buffer is fuel enough for a group: more changes
    nothing. *)
Lemma _DecodeUnknownFieldSet_fuel fuel1 : forall fuel2 buffer,
  (List.length buffer <= fuel1)%nat -> (List.length buffer <= fuel2)%nat ->
  _DecodeUnknownFieldSet fuel1 buffer = _DecodeUnknownFieldSet fuel2 buffer.
Proof.
  induction fuel1 as [|fuel1 IH]; intros fuel2 buffer H1 H2.
  - destruct buffer; [|cbn in H1; lia]. destruct fuel2; reflexivity.
  - destruct fuel2 as [|fuel2].
    { destruct buffer; [reflexivity | cbn in H2; lia]. }
    cbn [_DecodeUnknownFieldSet].
    destruct (ReadTag buffer) as [[tag_bytes rest]|] eqn:E; [|reflexivity].
    apply ReadTag_consumes in E. cbn [rbind].
    destruct (_DecodeVarint tag_bytes) as [[tag unused]|]; [|reflexivity].
    cbn [rbind].
    destruct (N.land tag 7 =? WIRETYPE_END_GROUP)%N; [reflexivity|].
    rewrite (DecodeUnknownField_of_ext (_DecodeUnknownFieldSet fuel1)
               (_DecodeUnknownFieldSet fuel2)) by (apply IH; lia).
    destruct (DecodeUnknownField_of (_DecodeUnknownFieldSet fuel2) (N.land tag 7) rest)
      as [[rest'|]|] eqn:E'; try reflexivity.
    cbn [rbind].
    apply DecodeUnknownField_of_consumes in E';
      [|apply _DecodeUnknownFieldSet_shortens].
    apply IH; lia.
Qed.

Lemma _SkipGroup_fuel fuel1 : forall fuel2 buffer,
  (List.length buffer <= fuel1)%nat -> (List.length buffer <= fuel2)%nat ->
  _SkipGroup fuel1 buffer = _SkipGroup fuel2 buffer.
Proof.
  induction fuel1 as [|fuel1 IH]; intros fuel2 buffer H1 H2.
  - destruct buffer; [|cbn in H1; lia]. destruct fuel2; reflexivity.
  - destruct fuel2 as [|fuel2].
    { destruct buffer; [reflexivity | cbn in H2; lia]. }
    cbn [_SkipGroup].
    destruct (ReadTag buffer) as [[tag_bytes rest]|] eqn:E; [|reflexivity].
    apply ReadTag_consumes in E. cbn [rbind].
    rewrite (SkipField_of_ext (_SkipGroup fuel1) (_SkipGroup fuel2))
      by (apply IH; lia).
    destruct (SkipField_of (_SkipGroup fuel2) (tag_wire_type tag_bytes) rest)
      as [[rest'|]|] eqn:E'; try reflexivity.
    cbn [rbind].
    apply SkipField_of_consumes in E'; [|apply _SkipGroup_shortens].
    apply IH; lia.
Qed.

Section Parse.
Variable Msg : Type.
Variable decoders_by_tag : list byte -> option (N * FieldType).
Variable setfield : N -> Z -> Msg -> Msg.

(** The same for the loop of the parser: [MergeFromString] never stops for
    want of fuel. *)
Lemma InternalParse_fuel fuel1 : forall fuel2 buffer msg,
  (List.length buffer <= fuel1)%nat -> (List.length buffer <= fuel2)%nat ->
  InternalParse Msg decoders_by_tag setfield fuel1 buffer msg
  = InternalParse Msg decoders_by_tag setfield fuel2 buffer msg.
Proof.
  induction fuel1 as [|fuel1 IH]; intros fuel2 buffer msg H1 H2;
    destruct buffer as [|b buffer]; try reflexivity;
    try (destruct fuel2; reflexivity); cbn [List.length] in *; [lia|].
  destruct fuel2 as [|fuel2]; [lia|].
  cbn [InternalParse].
  destruct (ReadTag (b :: buffer)) as [[tag_bytes rest]|] eqn:E; [|reflexivity].
  apply ReadTag_consumes in E. cbn [List.length] in E. cbn [rbind].
  destruct (decoders_by_tag tag_bytes) as [[field_number ty]|].
  - destruct (decode_value ty rest) as [[value rest']|] eqn:E'; [|reflexivity].
    apply decode_value_consumes in E'. cbn [rbind]. apply IH; lia.
  - destruct (_DecodeVarint tag_bytes) as [[tag unused]|]; [|reflexivity].
    cbn [rbind].
    destruct (N.shiftr tag 3 =? 0)%N; [reflexivity|].
    destruct (_DecodeUnknownField (N.land tag 7) rest) as [[decoded|]|];
      try reflexivity.
    cbn [rbind].
    destruct (SkipField tag_bytes rest) as [[rest'|]|] eqn:E'; try reflexivity.
    apply SkipField_consumes in E'. cbn [rbind]. apply IH; lia.
Qed.

End Parse.

End FuelFacts.

(* ===================================================================== *)
(** ** Tensors *)
(* ===================================================================== *)

Module TorchFacts.
Import Py Torch TextSeq2Seq.

Lemma rank_nonneg x : 0 <= rank x.
Proof. unfold rank. lia. Qed.

Lemma size_0 x : 1 <= rank x -> size x 0 = Ok (dim x 0).
Proof.
  intros H. unfold size.
  destruct (Z.leb_spec (- rank x) 0); [|lia].
  destruct (Z.ltb_spec 0 (rank x)); [|lia].
  reflexivity.
Qed.

Lemma size_1 x : 2 <= rank x -> size x 1 = Ok (dim x 1).
Proof.
  intros H. unfold size.
  destruct (Z.leb_spec (- rank x) 1); [|lia].
  destruct (Z.ltb_spec 1 (rank x)); [|lia].
  reflexivity.
Qed.

Lemma size_out_of_range x d : rank x <= d -> size x d = Raise IndexError.
Proof.
  intros H. unfold size.
  destruct (Z.ltb_spec d (rank x)); [lia|].
  now rewrite andb_false_r.
Qed.

Lemma shape_list_inj x y : shape_list x = shape_list y <-> shape x = shape y.
Proof.
  unfold shape_list. split; [|now intros ->].
  generalize (shape y). induction (shape x) as [|a l IH]; intros [|b l'] H;
    try discriminate; [reflexivity|].
  cbn in H. injection H as Hab Hl.
  apply N2Z.inj in Hab. apply IH in Hl. now subst.
Qed.

Lemma zeros_ok sz :
  Forall (fun d => 0 <= d) sz ->
  zeros sz = Ok (mkTensor (map Z.to_N sz) float32
                          (repeat zero (N.to_nat (numel (map Z.to_N sz))))).
Proof.
  intros H. unfold zeros.
  replace (forallb (fun d => 0 <=? d) sz) with true; [reflexivity|].
  symmetry. apply forallb_forall. intros d Hd.
  apply Z.leb_le. rewrite Forall_forall in H. now apply H.
Qed.

Lemma repeat_all_zero n : Forall (fun x => x = zero) (repeat zero n).
Proof. induction n; cbn; constructor; auto. Qed.

End TorchFacts.

(* ===================================================================== *)
(** ** Methods that only read their object *)
(* ===================================================================== *)

Module Frame.
Import Py Torch TextSeq2Seq.

Create HintDb readonly discriminated.

Lemma readonly_ret {A} (a : A) : readonly (ret a).
Proof. intros self. reflexivity. Qed.

Lemma readonly_raise {A} e : readonly (@raise t A e).
Proof. intros self. reflexivity. Qed.

Lemma readonly_getattr {A} (attr : t -> A) : readonly (getattr attr).
Proof. intros self. reflexivity. Qed.

Lemma readonly_lift {A} (r : result A) : readonly (lift r).
Proof. intros self. reflexivity. Qed.

Lemma readonly_bind {A B} (m : method t A) (k : A -> method t B) :
  readonly m -> (forall a, readonly (k a)) -> readonly (bind m k).
Proof.
  intros Hm Hk self. unfold bind.
  specialize (Hm self). destruct (m self) as [[a|e] self']; cbn in Hm; subst.
  - apply Hk.
  - reflexivity.
Qed.

Lemma readonly_if {A} (c : bool) (m1 m2 : method t A) :
  readonly m1 -> readonly m2 -> readonly (if c then m1 else m2).
Proof. now destruct c. Qed.

Lemma readonly_or_ (a b : method t bool) :
  readonly a -> readonly b -> readonly (or_ a b).
Proof.
  intros Ha Hb. unfold or_. apply readonly_bind; [exact Ha|].
  intros x. apply readonly_if; [apply readonly_ret | exact Hb].
Qed.

#[export] Hint Resolve readonly_ret readonly_raise readonly_getattr
  readonly_lift readonly_bind readonly_if readonly_or_ : readonly.

Ltac readonly := unfold __repr__, __str__; auto 20 with readonly.

Section Methods.
Variables TEXT_SEQ_2_SEQ vocab_size : Z.

Lemma readonly___str__ : readonly __str__.
Proof. readonly. Qed.

Lemma readonly_serialize_to_instance_proto : readonly serialize_to_instance_proto.
Proof. unfold serialize_to_instance_proto. readonly. Qed.

Lemma readonly_serialize_to_wire_proto code message :
  readonly (serialize_to_wire_proto TEXT_SEQ_2_SEQ code message).
Proof.
  unfold serialize_to_wire_proto.
  pose proof readonly_serialize_to_instance_proto. readonly.
Qed.

Lemma readonly_check_forward_request_tensor x :
  readonly (check_forward_request_tensor x).
Proof. unfold check_forward_request_tensor. readonly. Qed.

Lemma readonly_check_forward_response_tensor x y :
  readonly (check_forward_response_tensor x y).
Proof. unfold check_forward_response_tensor. readonly. Qed.

Lemma readonly_check_backward_request_gradient x y :
  readonly (check_backward_request_gradient x y).
Proof. unfold check_backward_request_gradient. readonly. Qed.

Lemma readonly_nill_forward_response_tensor x :
  readonly (nill_forward_response_tensor vocab_size x).
Proof. unfold nill_forward_response_tensor. readonly. Qed.

Lemma readonly_nill_backward_response_gradient x :
  readonly (nill_backward_response_gradient x).
Proof. unfold nill_backward_response_gradient. readonly. Qed.

Lemma readonly_call o : readonly (call TEXT_SEQ_2_SEQ vocab_size o).
Proof.
  pose proof readonly_serialize_to_instance_proto.
  pose proof readonly_serialize_to_wire_proto.
  pose proof readonly_check_forward_request_tensor.
  pose proof readonly_check_forward_response_tensor.
  pose proof readonly_check_backward_request_gradient.
  pose proof readonly_nill_forward_response_tensor.
  pose proof readonly_nill_backward_response_gradient.
  destruct o; cbn [call];
    unfold encode_forward_request_tensor, decode_forward_request_tensor,
      encode_forward_response_tensor, decode_forward_response_tensor,
      encode_backward_request_gradient, decode_backward_request_gradient;
    readonly.
Qed.

Lemma run_readonly ops : forall self,
  snd (run TEXT_SEQ_2_SEQ vocab_size ops self) = self.
Proof.
  induction ops as [|o ops IH]; intros self; cbn [run].
  - reflexivity.
  - pose proof (readonly_call o self) as Ho.
    destruct (call TEXT_SEQ_2_SEQ vocab_size o self) as [r self'].
    cbn in Ho. subst self'.
    specialize (IH self).
    destruct (run TEXT_SEQ_2_SEQ vocab_size ops self) as [rs self''].
    exact IH.
Qed.

End Methods.

End Frame.

(* ===================================================================== *)
(** ** The shape checks, evaluated *)
(* ===================================================================== *)

Module Checks.
Import Py Torch TextSeq2Seq TorchFacts.
Local Open Scope string_scope.
Local Open Scope Z_scope.

Lemma check_forward_request_tensor_eval self x :
  check_forward_request_tensor x self
  = (if rank x =? 2 then Ok tt
     else Raise (ValueError
            ("forward_request_tensor.shape must be in [-1, -1], got: "
             ++ str_list (shape_list x) ++ " for synapse: TextSeq2Seq")),
     self).
Proof.
  unfold check_forward_request_tensor.
  destruct (rank x =? 2); reflexivity.
Qed.

Lemma validated_rank self x : validated self x <-> rank x = 2.
Proof.
  unfold validated. rewrite check_forward_request_tensor_eval. cbn [fst].
  destruct (Z.eqb_spec (rank x) 2); split; intros H;
    try discriminate; try reflexivity; tauto.
Qed.

(** With a request of at least one dimension, the response check is a test
    on three numbers of which only [dim req 0] comes from the request. *)
Lemma check_forward_response_tensor_eval self req resp :
  1 <= rank req ->
  check_forward_response_tensor req resp self
  = (if negb (rank resp =? 2)
        || (negb (dim resp 0 =? dim req 0)
            || (dim resp 1 >? num_to_generate self))
     then Raise (ValueError
            ("forward_response_tensor.shape must be in ["
             ++ str_int (dim req 0) ++ ", "
             ++ str_int (num_to_generate self) ++ "], got: "
             ++ str_list (shape_list resp) ++ " for synapse: TextSeq2Seq"))
     else Ok tt,
     self).
Proof.
  intros Hreq. unfold check_forward_response_tensor, or_, bind, ret, lift, getattr.
  rewrite (size_0 req Hreq).
  destruct (Z.eqb_spec (rank resp) 2) as [Hresp|Hresp]; cbn [negb orb].
  - rewrite (size_0 resp), (size_1 resp) by lia.
    destruct (dim resp 0 =? dim req 0); cbn [negb orb]; [|reflexivity].
    destruct (dim resp 1 >? num_to_generate self); reflexivity.
  - reflexivity.
Qed.

Lemma check_backward_request_gradient_eval self req grad :
  check_backward_request_gradient req grad self
  = (if list_eq_dec Z.eq_dec (shape_list grad) (shape_list req) then Ok tt
     else Raise (ValueError
            ("backward_request_gradient.shape: " ++ str_list (shape_list grad)
             ++ " must be equivalent to forward_request_tensor.shape: "
             ++ str_list (shape_list req) ++ " for synapse: TextSeq2Seq")),
     self).
Proof.
  unfold check_backward_request_gradient.
  destruct (list_eq_dec Z.eq_dec (shape_list grad) (shape_list req)); reflexivity.
Qed.

(** Every request that passes the forward check makes the backward nil
    response raise: it asks for a third dimension. *)
Lemma nill_backward_response_gradient_validated self req :
  validated self req ->
  nill_backward_response_gradient req self = (Raise IndexError, self).
Proof.
  intros H. apply validated_rank in H.
  unfold nill_backward_response_gradient, bind, lift.
  rewrite (size_0 req), (size_1 req) by lia.
  rewrite (size_out_of_range req 2) by lia. reflexivity.
Qed.

Lemma nill_forward_response_tensor_eval vocab_size self req :
  2 <= rank req -> 0 <= vocab_size ->
  nill_forward_response_tensor vocab_size req self
  = (Ok (mkTensor [nth 0 (shape req) 0%N; nth 1 (shape req) 0%N; Z.to_N vocab_size]
                  float32
                  (repeat zero
                     (N.to_nat (numel [nth 0 (shape req) 0%N;
                                       nth 1 (shape req) 0%N;
                                       Z.to_N vocab_size])))),
     self).
Proof.
  intros Hreq Hv. unfold nill_forward_response_tensor, bind, lift.
  rewrite (size_0 req), (size_1 req) by lia.
  rewrite zeros_ok.
  - unfold dim. cbn [map]. now rewrite !N2Z.id.
  - unfold dim. repeat constructor; lia.
Qed.

End Checks.

(* ===================================================================== *)
(** ** The statements about the synapse *)
(* ===================================================================== *)

Import Py Torch Protobuf TextSeq2Seq.
Import ProtobufFacts TorchFacts Frame Checks.

(** C1.  The claim is that [nil_backward_gradient] returns zeros of the
    request's shape for every validated request, for instance for shape
    [(2, 8)].  The code asks a request of two dimensions for its third: on the
    validated request of shape [(2, 8)], whatever its elements, it raises
    [IndexError] and returns no tensor. *)
Theorem nill_backward_response_gradient_2_8_raises :
  forall (self : t) (dt : dtype) (elements : list scalar),
    let req := mkTensor [2%N; 8%N] dt elements in
    validated self req /\
    nill_backward_response_gradient req self = (Raise IndexError, self).
Proof.
  intros self dt elements req.
  assert (V : validated self req) by (apply validated_rank; reflexivity).
  split; [exact V|]. now apply nill_backward_response_gradient_validated.
Qed.

(** C2.  The claim is that every constructed instance, serialized with any
    return code and message, is rebuilt by [deserialize_from_wire_proto].  As
    stated it fails: the constructor takes any integer, the message that
    carries the attributes only an [int32], and for
    [TextSeq2Seq(topk = 2**32)] [serialize_to_wire_proto] raises [ValueError]
    and builds no wire message.  Amended: an instance built by the
    constructor with six arguments in the [int32] range, serialized with a
    return code in that range and any message, is a wire message from which
    [deserialize_from_wire_proto] rebuilds an instance equal to the first on
    every attribute. *)
Theorem wire_round_trip :
  forall (TEXT_SEQ_2_SEQ topk0 num0 frq frs brq brs code : Z) (message : string),
    in_range TYPE_ENUM TEXT_SEQ_2_SEQ = true ->
    in_range TYPE_INT32 topk0 = true ->
    in_range TYPE_INT32 num0 = true ->
    in_range TYPE_ENUM frq = true ->
    in_range TYPE_ENUM frs = true ->
    in_range TYPE_ENUM brq = true ->
    in_range TYPE_ENUM brs = true ->
    in_range TYPE_ENUM code = true ->
    let v := __init__ TEXT_SEQ_2_SEQ topk0 num0 frq frs brq brs in
    exists w,
      serialize_to_wire_proto TEXT_SEQ_2_SEQ code message v = (Ok w, v) /\
      deserialize_from_wire_proto TEXT_SEQ_2_SEQ w = Ok v.
Proof.
  intros T topk0 num0 frq frs brq brs code message HT H1 H2 H3 H4 H5 H6 Hc v.
  set (p := Proto.mkTextSeq2Seq topk0 num0 frq frs brq brs).
  exists (Proto.mkSynapse (Proto.SerializeToString p) T code message).
  split.
  - unfold serialize_to_wire_proto, serialize_to_instance_proto,
      bind, getattr, lift, v, __init__.
    cbn [topk num_to_generate forward_request_serializer_type
         forward_response_serializer_type backward_request_serializer_type
         backward_response_serializer_type].
    unfold Proto.TextSeq2Seq_new, Proto.Synapse_new.
    rewrite !CheckValue_ok by assumption. reflexivity.
  - unfold deserialize_from_wire_proto. cbn [Proto.synapse_data].
    rewrite ParseFromString_SerializeToString.
    + reflexivity.
    + repeat split; assumption.
Qed.

(** The scenario's synapse, [TextSeq2Seq(topk = 512, num_to_generate = 10)],
    sent with the code 1 and the message [Success]. *)
Lemma wire_round_trip_witness :
  let v := Scenario.synapse in
  exists w,
    serialize_to_wire_proto Scenario.TEXT_SEQ_2_SEQ 1 "Success" v = (Ok w, v) /\
    deserialize_from_wire_proto Scenario.TEXT_SEQ_2_SEQ w = Ok v.
Proof.
  apply (wire_round_trip Scenario.TEXT_SEQ_2_SEQ 512 10
           Scenario.MSGPACK Scenario.MSGPACK Scenario.MSGPACK Scenario.MSGPACK
           1 "Success"); reflexivity.
Defined.

(** The claim of C2 at [v = TextSeq2Seq(topk = 2**32)], with the default
    code and message of [serialize_to_wire_proto]: the call raises
    [ValueError], so there is no wire message to deserialize. *)
Lemma wire_round_trip_counterexample :
  let v := Scenario.oversized in
  (exists msg,
      serialize_to_wire_proto Scenario.TEXT_SEQ_2_SEQ 0 "" v
      = (Raise (ValueError msg), v)) /\
  ~ (exists w,
        serialize_to_wire_proto Scenario.TEXT_SEQ_2_SEQ 0 "" v = (Ok w, v) /\
        deserialize_from_wire_proto Scenario.TEXT_SEQ_2_SEQ w = Ok v).
Proof.
  intros v. split.
  - eexists. reflexivity.
  - intros (w & S & _). discriminate S.
Qed.

(** C3.  [check_forward_request_tensor] raises [ValueError] exactly when the
    tensor does not have two dimensions, returns normally exactly when it has
    two, whatever their sizes, and leaves the attributes of the synapse as
    they were (the tensor is only read: its [shape]). *)
Theorem check_forward_request_tensor_iff_rank :
  forall (self : t) (x : Tensor),
    ((exists msg, fst (check_forward_request_tensor x self) = Raise (ValueError msg))
     <-> rank x <> 2) /\
    (fst (check_forward_request_tensor x self) = Ok tt <-> rank x = 2) /\
    snd (check_forward_request_tensor x self) = self.
Proof.
  intros self x. rewrite check_forward_request_tensor_eval. cbn [fst snd].
  destruct (Z.eqb_spec (rank x) 2) as [E|E]; repeat split;
    try (intros [msg H]; discriminate H); try discriminate;
    try tauto; eauto.
Qed.

(** C4.  Against a request that passed [check_forward_request_tensor], the
    response check raises [ValueError] exactly when the response does not have
    two dimensions, or its first size differs from the request's, or its
    second size exceeds [num_to_generate]; in every other case it returns
    normally. *)
Theorem check_forward_response_tensor_iff :
  forall (self : t) (req resp : Tensor),
    validated self req ->
    ((exists msg,
        fst (check_forward_response_tensor req resp self) = Raise (ValueError msg))
     <-> (rank resp <> 2 \/ dim resp 0 <> dim req 0
          \/ dim resp 1 > num_to_generate self)) /\
    (fst (check_forward_response_tensor req resp self) = Ok tt
     <-> ~ (rank resp <> 2 \/ dim resp 0 <> dim req 0
            \/ dim resp 1 > num_to_generate self)).
Proof.
  intros self req resp V. apply validated_rank in V.
  rewrite check_forward_response_tensor_eval by lia. cbn [fst].
  rewrite Z.gtb_ltb.
  destruct (Z.eqb_spec (rank resp) 2) as [E1|E1];
    destruct (Z.eqb_spec (dim resp 0) (dim req 0)) as [E2|E2];
    destruct (Z.ltb_spec (num_to_generate self) (dim resp 1)) as [E3|E3];
    cbn [negb orb]; split; split;
    try (intros [msg H]; discriminate H); try discriminate;
    try (intros; exfalso; lia); try (intros; lia); eauto.
Qed.

(** The scenario of C4: with [num_to_generate = 10] a request of shape
    [(1, 6)] is validated, a response of shape [(1, 11)] is refused with
    [ValueError] and one of shape [(1, 10)] is accepted. *)
Lemma check_forward_response_tensor_iff_witness :
  let self := Scenario.synapse in
  let req := Scenario.ones [1%N; 6%N] in
  validated self req /\
  (exists msg,
     fst (check_forward_response_tensor req (Scenario.ones [1%N; 11%N]) self)
     = Raise (ValueError msg)) /\
  fst (check_forward_response_tensor req (Scenario.ones [1%N; 10%N]) self) = Ok tt.
Proof.
  intros self req.
  assert (V : validated self req) by reflexivity.
  split; [exact V|]. split.
  - apply (proj1 (check_forward_response_tensor_iff self req
                    (Scenario.ones [1%N; 11%N]) V)).
    right. right. reflexivity.
  - apply (proj2 (check_forward_response_tensor_iff self req
                    (Scenario.ones [1%N; 10%N]) V)).
    intros [H|[H|H]]; [apply H; reflexivity | apply H; reflexivity | discriminate H].
Defined.

(** C5.  [check_backward_request_gradient] raises [ValueError] exactly when
    the shape of the gradient, as a list of sizes in order, differs from the
    shape of the request, and returns normally exactly when the two are
    equal. *)
Theorem check_backward_request_gradient_iff :
  forall (self : t) (req grad : Tensor),
    ((exists msg,
        fst (check_backward_request_gradient req grad self) = Raise (ValueError msg))
     <-> shape grad <> shape req) /\
    (fst (check_backward_request_gradient req grad self) = Ok tt
     <-> shape grad = shape req).
Proof.
  intros self req grad. rewrite check_backward_request_gradient_eval. cbn [fst].
  rewrite <- shape_list_inj.
  destruct (list_eq_dec Z.eq_dec (shape_list grad) (shape_list req)) as [E|E];
    split; split; try (intros [msg H]; discriminate H); try discriminate;
    try tauto; eauto.
Qed.

(** C6.  For a request that passed [check_forward_request_tensor], and a
    vocabulary size that is not negative, [nill_forward_response_tensor]
    returns: a [float32] tensor of shape
    [(req.size(0), req.size(1), vocab_size)] all of whose elements are zero,
    one element for each position of that shape. *)
Theorem nill_forward_response_tensor_zeros :
  forall (vocab_size : Z) (self : t) (req : Tensor),
    validated self req ->
    0 <= vocab_size ->
    exists out,
      nill_forward_response_tensor vocab_size req self = (Ok out, self) /\
      shape_list out = [dim req 0; dim req 1; vocab_size] /\
      dtype_ out = float32 /\
      all_zero out /\
      List.length (data out) = N.to_nat (numel (shape out)).
Proof.
  intros vocab_size self req V Hv. apply validated_rank in V.
  eexists. split.
  - apply nill_forward_response_tensor_eval; lia.
  - unfold shape_list, all_zero, dim. cbn [shape dtype_ data map].
    rewrite Z2N.id by exact Hv.
    repeat split.
    + apply repeat_all_zero.
    + apply repeat_length.
Qed.

(** The example of C6: a request of shape [(1, 4)] and a vocabulary of 50000
    entries give zeros of shape [(1, 4, 50000)]. *)
Lemma nill_forward_response_tensor_zeros_witness :
  let self := Scenario.synapse in
  let req := Scenario.ones [1%N; 4%N] in
  validated self req /\
  0 <= Scenario.vocab_size /\
  exists out,
    nill_forward_response_tensor Scenario.vocab_size req self = (Ok out, self) /\
    shape_list out = [1; 4; 50000] /\
    dtype_ out = float32 /\
    all_zero out /\
    List.length (data out) = N.to_nat (numel (shape out)).
Proof.
  intros self req.
  assert (V : validated self req) by reflexivity.
  assert (P : 0 <= Scenario.vocab_size) by (unfold Scenario.vocab_size; lia).
  split; [exact V|]. split; [exact P|].
  exact (nill_forward_response_tensor_zeros Scenario.vocab_size self req V P).
Defined.

(** C7.  Each of the three encode/decode pairs gives back the tensor it was
    given: decoding what was encoded is the identity, for the forward
    request, the forward response and the backward gradient. *)
Theorem encode_decode_identity :
  forall (self : t) (x : Tensor),
    bind (encode_forward_request_tensor x) decode_forward_request_tensor self
    = (Ok x, self) /\
    bind (encode_forward_response_tensor x) decode_forward_response_tensor self
    = (Ok x, self) /\
    bind (encode_backward_request_gradient x) decode_backward_request_gradient self
    = (Ok x, self).
Proof. intros self x. repeat split. Qed.

(** C8.  Whatever public operations are called on an instance, in whatever
    order and with whatever arguments, and whether they return or raise, its
    six attributes keep the values the constructor gave them. *)
Theorem attributes_unchanged :
  forall (TEXT_SEQ_2_SEQ vocab_size topk0 num0 frq frs brq brs : Z) (ops : list op),
    let self := snd (run TEXT_SEQ_2_SEQ vocab_size ops
                         (__init__ TEXT_SEQ_2_SEQ topk0 num0 frq frs brq brs)) in
    topk self = topk0 /\
    num_to_generate self = num0 /\
    forward_request_serializer_type self = frq /\
    forward_response_serializer_type self = frs /\
    backward_request_serializer_type self = brq /\
    backward_response_serializer_type self = brs.
Proof.
  intros T vocab_size topk0 num0 frq frs brq brs ops self.
  unfold self. rewrite run_readonly. repeat split.
Qed.

(** C9.  [deserialize_from_wire_proto] reads the payload of the wire message
    and nothing else: two messages with the same [synapse_data] give the same
    result, whatever their tag, return code and message; and a message whose
    tag is not the tag of this synapse is deserialized all the same when its
    payload parses. *)
Theorem deserialize_from_wire_proto_reads_only_synapse_data :
  forall (TEXT_SEQ_2_SEQ : Z),
    (forall w1 w2 : Proto.Synapse,
        Proto.synapse_data w1 = Proto.synapse_data w2 ->
        deserialize_from_wire_proto TEXT_SEQ_2_SEQ w1
        = deserialize_from_wire_proto TEXT_SEQ_2_SEQ w2) /\
    (forall (w : Proto.Synapse) (p : Proto.TextSeq2Seq),
        Proto.synapse_type w <> TEXT_SEQ_2_SEQ ->
        Proto.ParseFromString (Proto.synapse_data w) = Ok p ->
        exists v, deserialize_from_wire_proto TEXT_SEQ_2_SEQ w = Ok v /\
                  topk v = Proto.topk p /\
                  num_to_generate v = Proto.num_to_generate p).
Proof.
  intros T. split.
  - intros w1 w2 E. unfold deserialize_from_wire_proto. now rewrite E.
  - intros w p _ E. unfold deserialize_from_wire_proto. rewrite E.
    eexists. split; [reflexivity|]. split; reflexivity.
Qed.

(** Two envelopes around the payload [10 07] ([topk = 7]): one with the tag
    of the synapse, one with another tag, another code and another message. *)
Lemma deserialize_from_wire_proto_reads_only_synapse_data_witness :
  let w1 := Proto.mkSynapse [x10; x07] Scenario.TEXT_SEQ_2_SEQ 1 "Success" in
  let w2 := Proto.mkSynapse [x10; x07] 0 5 "Timeout" in
  deserialize_from_wire_proto Scenario.TEXT_SEQ_2_SEQ w1
  = deserialize_from_wire_proto Scenario.TEXT_SEQ_2_SEQ w2 /\
  exists v, deserialize_from_wire_proto Scenario.TEXT_SEQ_2_SEQ w2 = Ok v /\
            topk v = 7 /\ num_to_generate v = 0.
Proof.
  intros w1 w2. split.
  - apply (proj1 (deserialize_from_wire_proto_reads_only_synapse_data
                    Scenario.TEXT_SEQ_2_SEQ) w1 w2).
    reflexivity.
  - apply (proj2 (deserialize_from_wire_proto_reads_only_synapse_data
                    Scenario.TEXT_SEQ_2_SEQ) w2
                 (Proto.mkTextSeq2Seq 7 0 0 0 0 0)).
    + discriminate.
    + reflexivity.
Defined.

(** C10.  Of the request, [check_forward_response_tensor] reads the first
    size only: two requests of at least one dimension with the same first size
    give, for every response, the same outcome (so one passes exactly when
    the other does); and a request that does not have two dimensions is let
    through once the response has two, the same first size and at most
    [num_to_generate] columns. *)
Theorem check_forward_response_tensor_reads_only_dim0 :
  forall (self : t),
    (forall req1 req2 resp : Tensor,
        1 <= rank req1 -> 1 <= rank req2 -> dim req1 0 = dim req2 0 ->
        check_forward_response_tensor req1 resp self
        = check_forward_response_tensor req2 resp self /\
        (fst (check_forward_response_tensor req1 resp self) = Ok tt
         <-> fst (check_forward_response_tensor req2 resp self) = Ok tt)) /\
    (forall req resp : Tensor,
        1 <= rank req -> rank req <> 2 ->
        rank resp = 2 -> dim resp 0 = dim req 0 ->
        dim resp 1 <= num_to_generate self ->
        fst (check_forward_response_tensor req resp self) = Ok tt).
Proof.
  intros self. split.
  - intros req1 req2 resp H1 H2 E.
    assert (Eq : check_forward_response_tensor req1 resp self
                 = check_forward_response_tensor req2 resp self).
    { rewrite !check_forward_response_tensor_eval by assumption.
      now rewrite E. }
    split; [exact Eq|]. now rewrite Eq.
  - intros req resp H1 _ H2 E Hn.
    rewrite check_forward_response_tensor_eval by assumption. cbn [fst].
    rewrite Z.gtb_ltb.
    destruct (Z.eqb_spec (rank resp) 2); [|contradiction].
    destruct (Z.eqb_spec (dim resp 0) (dim req 0)); [|contradiction].
    destruct (Z.ltb_spec (num_to_generate self) (dim resp 1)); [lia|].
    reflexivity.
Qed.

(** A request of three dimensions, [(1, 6, 2)], against a response of shape
    [(1, 10)]: the check behaves as for the request [(1, 6)], and passes. *)
Lemma check_forward_response_tensor_reads_only_dim0_witness :
  let self := Scenario.synapse in
  let req1 := Scenario.ones [1%N; 6%N; 2%N] in
  let req2 := Scenario.ones [1%N; 6%N] in
  let resp := Scenario.ones [1%N; 10%N] in
  check_forward_response_tensor req1 resp self
  = check_forward_response_tensor req2 resp self /\
  fst (check_forward_response_tensor req1 resp self) = Ok tt.
Proof.
  intros self req1 req2 resp. split.
  - apply (proj1 (check_forward_response_tensor_reads_only_dim0 self)
             req1 req2 resp); [cbn; lia | cbn; lia | reflexivity].
  - apply (proj2 (check_forward_response_tensor_reads_only_dim0 self)
             req1 resp); [cbn; lia | discriminate | reflexivity | reflexivity
                          | cbn; lia].
Defined.

(* ===================================================================== *)
(** * Further properties *)
(* ===================================================================== *)

(** ** What the parser keeps, and what it reads after the fields *)

Module ParserFacts.
Import Py Protobuf ProtobufFacts FuelFacts.

Lemma lxor_signbit_range x :
  0 <= x < 2 ^ 32 -> 0 <= Z.lxor x (2 ^ 31) < 2 ^ 32.
Proof.
  intros Hx. destruct (Z.lt_ge_cases x (2 ^ 31)) as [L|G].
  - rewrite lxor_signbit_low; lia.
  - replace x with ((x - 2 ^ 31) + 2 ^ 31) by lia.
    rewrite <- (lxor_signbit_low (x - 2 ^ 31)) by lia.
    rewrite Z.lxor_assoc, Z.lxor_nilpotent, Z.lxor_0_r. lia.
Qed.

(** Whatever the bytes, a value read for an [int32] or an enum field is an
    [int32]. *)
Lemma decode_value_in_range ty buffer v rest :
  decode_value ty buffer = Ok (v, rest) -> in_range ty v = true.
Proof.
  intros H. apply in_range_int32.
  assert (D : _DecodeSignedVarint32 buffer = Ok (v, rest)) by (now destruct ty).
  clear H. unfold _DecodeSignedVarint32, DecodeSignedVarint in D.
  destruct (DecodeVarint_loop 0 0 buffer) as [[r rest']|]; cbn [rbind] in D;
    [|discriminate].
  injection D as <- _.
  change (Z.shiftl 1 (Z.of_N 32 - 1)) with (2 ^ 31).
  assert (B : 0 <= Z.of_N (N.land r (N.ones 32)) < 2 ^ 32).
  { rewrite N.land_ones, N2Z.inj_mod. change (Z.of_N (2 ^ 32)) with (2 ^ 32).
    apply Z.mod_pos_bound. lia. }
  pose proof (lxor_signbit_range _ B) as H.
  change (2 ^ 31) with 2147483648 in *. change (2 ^ 32) with 4294967296 in *. lia.
Qed.

Section Parse.
Variable Msg : Type.
Variable decoders_by_tag : list byte -> option (N * FieldType).
Variable setfield : N -> Z -> Msg -> Msg.

(** A property of messages that every assignment of a well-typed value keeps
    is kept by parsing. *)
Variable P : Msg -> Prop.
Hypothesis setfield_keeps :
  forall tag_bytes n ty v m,
    decoders_by_tag tag_bytes = Some (n, ty) -> in_range ty v = true ->
    P m -> P (setfield n v m).

Lemma InternalParse_keeps fuel : forall buffer msg msg' rest,
  P msg ->
  InternalParse Msg decoders_by_tag setfield fuel buffer msg = Ok (msg', rest) ->
  P msg'.
Proof.
  induction fuel as [|fuel IH]; intros [|b buffer] msg msg' rest HP H;
    cbn [InternalParse] in H; try discriminate;
    try (injection H as <- _; exact HP).
  destruct (ReadTag (b :: buffer)) as [[tag_bytes rest0]|]; cbn [rbind] in H;
    [|discriminate].
  destruct (decoders_by_tag tag_bytes) as [[n ty]|] eqn:Edec.
  - destruct (decode_value ty rest0) as [[v rest']|] eqn:E'; cbn [rbind] in H;
      [|discriminate].
    eapply IH; [|exact H].
    eapply setfield_keeps; eauto. eapply decode_value_in_range; eauto.
  - destruct (_DecodeVarint tag_bytes) as [[tag unused]|]; cbn [rbind] in H;
      [|discriminate].
    destruct (N.shiftr tag 3 =? 0)%N; [discriminate|].
    destruct (_DecodeUnknownField (N.land tag 7) rest0) as [[decoded|]|];
      cbn [rbind] in H; try discriminate;
      [|injection H as <- _; exact HP].
    destruct (SkipField tag_bytes rest0) as [[rest'|]|]; cbn [rbind] in H;
      try discriminate; [|injection H as <- _; exact HP].
    eapply IH; eauto.
Qed.

Lemma MergeFromString_keeps buffer msg msg' :
  P msg ->
  MergeFromString Msg decoders_by_tag setfield buffer msg = Ok msg' ->
  P msg'.
Proof.
  intros HP H. unfold MergeFromString in H.
  destruct (InternalParse Msg decoders_by_tag setfield (List.length buffer) buffer msg)
    as [[m rest]|] eqn:E; cbn [rbind] in H; [|discriminate].
  destruct rest; [|discriminate]. injection H as <-.
  eapply InternalParse_keeps; eauto.
Qed.

End Parse.

Lemma TextSeq2Seq_decoders_by_tag_In tag_bytes n ty :
  Proto.TextSeq2Seq_decoders_by_tag tag_bytes = Some (n, ty) ->
  In (n, ty) Proto.TextSeq2Seq_fields.
Proof.
  unfold Proto.TextSeq2Seq_decoders_by_tag. intros H.
  now apply find_some in H.
Qed.

Lemma TextSeq2Seq_setfield_well_typed tag_bytes n ty v m :
  Proto.TextSeq2Seq_decoders_by_tag tag_bytes = Some (n, ty) ->
  in_range ty v = true ->
  Proto.well_typed m -> Proto.well_typed (Proto.TextSeq2Seq_setfield n v m).
Proof.
  intros Hdec Hv. apply TextSeq2Seq_decoders_by_tag_In in Hdec.
  destruct m as [f2 f3 f4 f5 f6 f7]. unfold Proto.well_typed. cbn.
  intros (H2 & H3 & H4 & H5 & H6 & H7).
  cbn [Proto.TextSeq2Seq_fields In] in Hdec.
  destruct Hdec as [E|[E|[E|[E|[E|[E|[]]]]]]]; injection E as <- <-;
    cbn; repeat split; assumption.
Qed.

Lemma ParseFromString_well_typed buffer p :
  Proto.ParseFromString buffer = Ok p -> Proto.well_typed p.
Proof.
  unfold Proto.ParseFromString.
  apply MergeFromString_keeps with (P := Proto.well_typed).
  - apply TextSeq2Seq_setfield_well_typed.
  - repeat split.
Qed.

End ParserFacts.

(** ** How long a payload gets *)

Module SizeFacts.
Import Py Protobuf ProtobufFacts.
Local Open Scope N_scope.

Lemma EncodeSignedVarint_length v :
  (- 2 ^ 63 <= v < 2 ^ 63)%Z -> (List.length (EncodeSignedVarint v) <= 10)%nat.
Proof.
  intros H. unfold EncodeSignedVarint. apply (EncodeVarint_length _ 9).
  change (2 ^ (7 * (N.of_nat 9 + 1))) with (2 ^ 70).
  change (Z.shiftl 1 64) with (2 ^ 64)%Z.
  assert (Z.to_N (if (v <? 0)%Z then (v + 2 ^ 64)%Z else v) < 2 ^ 64)
    by (destruct (Z.ltb_spec v 0); lia).
  eapply N.lt_trans; [eassumption | reflexivity].
Qed.

Lemma encode_value_length ty v :
  in_range ty v = true -> (List.length (encode_value ty v) <= 10)%nat.
Proof.
  intros H. apply in_range_int32 in H.
  destruct ty; cbn [encode_value]; apply EncodeSignedVarint_length; lia.
Qed.

(** A field numbered below 16 has a tag of one byte. *)
Lemma encode_field_length n ty v :
  n < 16 -> in_range ty v = true ->
  (List.length (encode_field n ty v) <= 11)%nat.
Proof.
  intros Hn H. unfold encode_field.
  destruct (v =? 0)%Z; [cbn; lia|].
  rewrite length_app.
  assert (T : (List.length (TagBytes n WIRETYPE_VARINT) <= 1)%nat).
  { apply (EncodeVarint_length _ 0).
    unfold PackTag, WIRETYPE_VARINT. rewrite N.lor_0_r, N.shiftl_mul_pow2.
    change (2 ^ (7 * (N.of_nat 0 + 1))) with 128. change (2 ^ 3) with 8. lia. }
  pose proof (encode_value_length ty v H). lia.
Qed.

Lemma SerializeToString_length p :
  Proto.well_typed p -> (List.length (Proto.SerializeToString p) <= 66)%nat.
Proof.
  intros (H2 & H3 & H4 & H5 & H6 & H7). unfold Proto.SerializeToString.
  rewrite !length_app.
  pose proof (encode_field_length 2 _ _ eq_refl H2).
  pose proof (encode_field_length 3 _ _ eq_refl H3).
  pose proof (encode_field_length 4 _ _ eq_refl H4).
  pose proof (encode_field_length 5 _ _ eq_refl H5).
  pose proof (encode_field_length 6 _ _ eq_refl H6).
  pose proof (encode_field_length 7 _ _ eq_refl H7).
  lia.
Qed.

End SizeFacts.

(** ** The two serializers, evaluated *)

Module WireFacts.
Import Py Protobuf TextSeq2Seq ProtobufFacts.

Lemma CheckValue_cases ty v :
  (in_range ty v = true /\ CheckValue ty v = Ok v) \/
  (in_range ty v = false /\ exists msg, CheckValue ty v = Raise (ValueError msg)).
Proof.
  unfold CheckValue. destruct (in_range ty v); [left|right]; eauto.
Qed.

Lemma serialize_to_instance_proto_cases v :
  (Schema.fits v /\
   serialize_to_instance_proto v = (Ok (Schema.instance_proto v), v)) \/
  (~ Schema.fits v /\
   exists msg, serialize_to_instance_proto v = (Raise (ValueError msg), v)).
Proof.
  unfold serialize_to_instance_proto, bind, getattr, lift, Proto.TextSeq2Seq_new,
    Schema.fits, Schema.instance_proto.
  destruct (CheckValue_cases TYPE_INT32 (topk v)) as [[R1 ->]|[R1 [m ->]]];
    [|right; split; [rewrite R1; intuition discriminate | exists m; reflexivity]].
  destruct (CheckValue_cases TYPE_INT32 (num_to_generate v)) as [[R2 ->]|[R2 [m ->]]];
    [|right; split; [rewrite R2; intuition discriminate | exists m; reflexivity]].
  destruct (CheckValue_cases TYPE_ENUM (forward_request_serializer_type v))
    as [[R3 ->]|[R3 [m ->]]];
    [|right; split; [rewrite R3; intuition discriminate | exists m; reflexivity]].
  destruct (CheckValue_cases TYPE_ENUM (forward_response_serializer_type v))
    as [[R4 ->]|[R4 [m ->]]];
    [|right; split; [rewrite R4; intuition discriminate | exists m; reflexivity]].
  destruct (CheckValue_cases TYPE_ENUM (backward_request_serializer_type v))
    as [[R5 ->]|[R5 [m ->]]];
    [|right; split; [rewrite R5; intuition discriminate | exists m; reflexivity]].
  destruct (CheckValue_cases TYPE_ENUM (backward_response_serializer_type v))
    as [[R6 ->]|[R6 [m ->]]];
    [|right; split; [rewrite R6; intuition discriminate | exists m; reflexivity]].
  left. cbn [rbind]. repeat split; assumption.
Qed.

Lemma serialize_to_wire_proto_cases T code message v :
  (Schema.sendable T v code /\
   serialize_to_wire_proto T code message v
   = (Ok (Proto.mkSynapse (Proto.SerializeToString (Schema.instance_proto v))
                          T code message), v)) \/
  (~ Schema.sendable T v code /\
   exists msg, serialize_to_wire_proto T code message v = (Raise (ValueError msg), v)).
Proof.
  unfold serialize_to_wire_proto, Schema.sendable.
  unfold bind at 1 2.
  destruct (serialize_to_instance_proto_cases v) as [[F ->]|[F [m ->]]];
    [|right; split; [tauto | exists m; reflexivity]].
  unfold lift, Proto.Synapse_new.
  destruct (CheckValue_cases TYPE_ENUM T) as [[R1 ->]|[R1 [m ->]]];
    [|right; split; [rewrite R1; intuition discriminate | exists m; reflexivity]].
  destruct (CheckValue_cases TYPE_ENUM code) as [[R2 ->]|[R2 [m ->]]];
    [|right; split; [rewrite R2; intuition discriminate | exists m; reflexivity]].
  left. cbn [rbind]. auto.
Qed.

Lemma deserialize_from_wire_proto_eval T w :
  deserialize_from_wire_proto T w
  = rbind (Proto.ParseFromString (Proto.synapse_data w))
          (fun p => Ok (__init__ T (Proto.topk p) (Proto.num_to_generate p)
                          (Proto.forward_request_serializer_type p)
                          (Proto.forward_response_serializer_type p)
                          (Proto.backward_request_serializer_type p)
                          (Proto.backward_response_serializer_type p))).
Proof. reflexivity. Qed.

Lemma init_instance_proto T v :
  synapse_type v = T ->
  __init__ T (Proto.topk (Schema.instance_proto v))
    (Proto.num_to_generate (Schema.instance_proto v))
    (Proto.forward_request_serializer_type (Schema.instance_proto v))
    (Proto.forward_response_serializer_type (Schema.instance_proto v))
    (Proto.backward_request_serializer_type (Schema.instance_proto v))
    (Proto.backward_response_serializer_type (Schema.instance_proto v)) = v.
Proof. intros <-. now destruct v. Qed.

End WireFacts.

(** ** The checks and the nil responses on requests of any rank *)

Module MoreChecks.
Import Py Torch TextSeq2Seq TorchFacts Checks.

Lemma size_2 x : 3 <= rank x -> size x 2 = Ok (dim x 2).
Proof.
  intros H. unfold size.
  destruct (Z.leb_spec (- rank x) 2); [|lia].
  destruct (Z.ltb_spec 2 (rank x)); [|lia].
  reflexivity.
Qed.

Lemma zeros_negative sz : Exists (fun d => d < 0) sz -> zeros sz = Raise RuntimeError.
Proof.
  intros H. unfold zeros.
  replace (forallb (fun d => 0 <=? d) sz) with false; [reflexivity|].
  symmetry. apply not_true_is_false. intros F.
  rewrite forallb_forall in F. apply Exists_exists in H as (d & Hd & Hneg).
  apply F, Z.leb_le in Hd. lia.
Qed.

Lemma dim_nonneg x i : 0 <= dim x i.
Proof. unfold dim. lia. Qed.

Lemma check_forward_response_tensor_scalar self req resp :
  rank req = 0 ->
  check_forward_response_tensor req resp self = (Raise IndexError, self).
Proof.
  intros H. unfold check_forward_response_tensor, or_, bind, ret, lift, getattr.
  rewrite (size_out_of_range req 0) by lia.
  destruct (Z.eqb_spec (rank resp) 2) as [E|E]; cbn [negb].
  - rewrite (size_0 resp) by lia. reflexivity.
  - reflexivity.
Qed.

Lemma nill_forward_response_tensor_cases vocab_size self req :
  nill_forward_response_tensor vocab_size req self
  = (if rank req <? 2 then Raise IndexError
     else if vocab_size <? 0 then Raise RuntimeError
     else Ok (mkTensor [nth 0 (shape req) 0%N; nth 1 (shape req) 0%N;
                        Z.to_N vocab_size]
                       float32
                       (repeat zero
                          (N.to_nat (numel [nth 0 (shape req) 0%N;
                                            nth 1 (shape req) 0%N;
                                            Z.to_N vocab_size])))),
     self).
Proof.
  pose proof (rank_nonneg req) as R.
  destruct (Z.ltb_spec (rank req) 2) as [L|G].
  - unfold nill_forward_response_tensor, bind, lift.
    destruct (Z.eq_dec (rank req) 0) as [E|E].
    + now rewrite (size_out_of_range req 0) by lia.
    + rewrite (size_0 req) by lia.
      now rewrite (size_out_of_range req 1) by lia.
  - destruct (Z.ltb_spec vocab_size 0) as [N|P].
    + unfold nill_forward_response_tensor, bind, lift.
      rewrite (size_0 req), (size_1 req) by lia.
      rewrite zeros_negative; [reflexivity|].
      apply Exists_cons_tl, Exists_cons_tl, Exists_cons_hd. exact N.
    + now apply nill_forward_response_tensor_eval.
Qed.

Lemma nill_backward_response_gradient_cases self req :
  nill_backward_response_gradient req self
  = (if rank req <? 3 then Raise IndexError
     else Ok (mkTensor [nth 0 (shape req) 0%N; nth 1 (shape req) 0%N;
                        nth 2 (shape req) 0%N]
                       float32
                       (repeat zero
                          (N.to_nat (numel [nth 0 (shape req) 0%N;
                                            nth 1 (shape req) 0%N;
                                            nth 2 (shape req) 0%N])))),
     self).
Proof.
  pose proof (rank_nonneg req) as R.
  unfold nill_backward_response_gradient, bind, lift.
  destruct (Z.ltb_spec (rank req) 3) as [L|G].
  - destruct (Z.eq_dec (rank req) 0) as [E0|E0];
      [now rewrite (size_out_of_range req 0) by lia|].
    rewrite (size_0 req) by lia.
    destruct (Z.eq_dec (rank req) 1) as [E1|E1];
      [now rewrite (size_out_of_range req 1) by lia|].
    rewrite (size_1 req) by lia.
    now rewrite (size_out_of_range req 2) by lia.
  - rewrite (size_0 req), (size_1 req), (size_2 req) by lia.
    rewrite zeros_ok.
    + unfold dim. cbn [map]. now rewrite !N2Z.id.
    + unfold dim. repeat constructor; lia.
Qed.

Lemma rank_3_shape x :
  rank x = 3 ->
  shape x = [nth 0 (shape x) 0%N; nth 1 (shape x) 0%N; nth 2 (shape x) 0%N].
Proof.
  unfold rank. destruct (shape x) as [|a [|b [|c [|d l]]]]; cbn; intros H;
    try lia; reflexivity.
Qed.

End MoreChecks.

(** ** The example synapse *)

Module ExampleFacts.
Import Py Torch TextSeq2Seq TorchFacts Example.

Lemma shape_getitem_size x i : shape_getitem x i = size x i.
Proof. reflexivity. Qed.

Lemma forward_cases network_dim call :
  forward network_dim call
  = if rank (text_inputs call) <? 2 then (Raise IndexError, call)
    else if network_dim <? 0 then (Raise RuntimeError, call)
    else
      let x := text_inputs call in
      let sz := [nth 0 (shape x) 0%N; nth 1 (shape x) 0%N; Z.to_N network_dim] in
      let call' := mkForwardCall x
                     (Some (mkTensor sz float32 (repeat zero (N.to_nat (numel sz))))) in
      (Ok call', call').
Proof.
  pose proof (rank_nonneg (text_inputs call)) as R.
  unfold forward, bind, getattr, lift, setattr, this.
  rewrite !shape_getitem_size.
  destruct (Z.ltb_spec (rank (text_inputs call)) 2) as [L|G].
  - destruct (Z.eq_dec (rank (text_inputs call)) 0) as [E|E].
    + now rewrite (size_out_of_range _ 0) by lia.
    + rewrite (size_0 _) by lia. now rewrite (size_out_of_range _ 1) by lia.
  - rewrite (size_0 _), (size_1 _) by lia.
    destruct (Z.ltb_spec network_dim 0) as [N|P].
    + unfold zeros. cbn [forallb].
      destruct (Z.leb_spec 0 network_dim); [lia|].
      now rewrite !andb_false_r.
    + rewrite zeros_ok by (unfold dim; repeat constructor; lia).
      unfold dim. cbn [map]. rewrite !N2Z.id. reflexivity.
Qed.

End ExampleFacts.

(** ** Payloads with something after the fields *)

Module PayloadFacts.
Import Py Protobuf TextSeq2Seq ProtobufFacts FuelFacts.

Lemma ParseFromString_app p rest :
  Proto.well_typed p ->
  Proto.ParseFromString (Proto.SerializeToString p ++ rest)
  = MergeFromString Proto.TextSeq2Seq Proto.TextSeq2Seq_decoders_by_tag
      Proto.TextSeq2Seq_setfield rest p.
Proof.
  intros H. unfold Proto.ParseFromString, MergeFromString.
  destruct (InternalParse_SerializeToString _ p rest H (le_n _)) as (fuel & L & ->).
  now rewrite (InternalParse_fuel _ _ _ fuel (List.length rest)).
Qed.

Section Tags.
Local Open Scope N_scope.

Lemma EncodeVarint_inj u v :
  u < 2 ^ 64 -> v < 2 ^ 64 -> EncodeVarint u = EncodeVarint v -> u = v.
Proof.
  intros Hu Hv E.
  pose proof (Decode_Encode u [] Hu) as Du.
  pose proof (Decode_Encode v [] Hv) as Dv.
  rewrite E in Du. congruence.
Qed.

Lemma PackTag_number n : N.shiftr (PackTag n WIRETYPE_VARINT) 3 = n.
Proof.
  unfold PackTag, WIRETYPE_VARINT. rewrite N.lor_0_r.
  rewrite N.shiftr_shiftl_l by lia. apply N.shiftl_0_r.
Qed.

Lemma PackTag_wire_type n : N.land (PackTag n WIRETYPE_VARINT) 7 = 0.
Proof.
  unfold PackTag, WIRETYPE_VARINT. rewrite N.lor_0_r.
  change 7 with (N.ones 3). rewrite N.land_ones, N.shiftl_mul_pow2.
  apply N.Div0.mod_mul.
Qed.

Lemma PackTag_lt n : n < 2 ^ 61 -> PackTag n WIRETYPE_VARINT < 2 ^ 64.
Proof.
  intros H. unfold PackTag, WIRETYPE_VARINT.
  rewrite N.lor_0_r, N.shiftl_mul_pow2.
  change (2 ^ 64) with (2 ^ 61 * 2 ^ 3).
  apply N.mul_lt_mono_pos_r; [reflexivity|exact H].
Qed.

Lemma TagBytes_inj m n :
  m < 2 ^ 61 -> n < 2 ^ 61 ->
  TagBytes m WIRETYPE_VARINT = TagBytes n WIRETYPE_VARINT -> m = n.
Proof.
  intros Hm Hn E. apply EncodeVarint_inj in E; try now apply PackTag_lt.
  rewrite <- (PackTag_number m), <- (PackTag_number n). now rewrite E.
Qed.

Lemma bytes_eqb_eq a : forall b, bytes_eqb a b = true -> a = b.
Proof.
  induction a as [|x a IH]; intros [|y b] H; cbn in H; try discriminate;
    [reflexivity|].
  apply andb_true_iff in H as [Hx Hab].
  apply Byte.byte_dec_bl in Hx. apply IH in Hab. now subst.
Qed.

(** A number above 7 is the number of no field of the message. *)
Lemma TextSeq2Seq_decoders_by_tag_unknown n :
  7 < n < 2 ^ 61 ->
  Proto.TextSeq2Seq_decoders_by_tag (TagBytes n WIRETYPE_VARINT) = None.
Proof.
  intros [Hn1 Hn2].
  destruct (Proto.TextSeq2Seq_decoders_by_tag (TagBytes n WIRETYPE_VARINT))
    as [[k ty]|] eqn:E; [|reflexivity].
  unfold Proto.TextSeq2Seq_decoders_by_tag in E.
  apply find_some in E as [Hin Heq]. apply bytes_eqb_eq in Heq.
  cbn [Proto.TextSeq2Seq_fields In] in Hin.
  assert (Hk : k < 8)
    by (destruct Hin as [X|[X|[X|[X|[X|[X|[]]]]]]]; injection X as <- _; reflexivity).
  apply TagBytes_inj in Heq; [lia| |exact Hn2].
  eapply N.lt_trans; [exact Hk|reflexivity].
Qed.

(** The wire type [SkipField] reads off the first byte of a tag is the wire
    type the tag was packed with. *)
Lemma tag_wire_type_Encode v : tag_wire_type (EncodeVarint v) = N.land v 7.
Proof.
  assert (Low : N.land (N.land v 127) 7 = N.land v 7)
    by (rewrite <- N.land_assoc; reflexivity).
  unfold EncodeVarint.
  destruct (N.to_nat (N.size v)) as [|fuel]; cbn [EncodeVarint_loop tag_wire_type].
  - rewrite ord_int2byte by (pose proof (land_127_lt v); lia). exact Low.
  - destruct (N.shiftr v 7 =? 0); cbn [tag_wire_type].
    + rewrite ord_int2byte by (pose proof (land_127_lt v); lia). exact Low.
    + rewrite ord_int2byte by apply lor_128_lt.
      rewrite N.land_lor_distr_l. cbn [N.land Pos.land]. now rewrite N.lor_0_l.
Qed.

Lemma _SkipVarint_Encode_loop fuel : forall v rest,
  v < 2 ^ (7 * (N.of_nat fuel + 1)) ->
  _SkipVarint (EncodeVarint_loop fuel v ++ rest) = Ok rest.
Proof.
  assert (Last : forall v rest, _SkipVarint (int2byte (N.land v 127) :: rest) = Ok rest).
  { intros v rest. cbn [_SkipVarint].
    rewrite ord_int2byte by (pose proof (land_127_lt v); lia).
    now rewrite land_127_128. }
  induction fuel as [|fuel IH]; intros v rest Hfuel; cbn [EncodeVarint_loop].
  - apply Last.
  - destruct (N.eqb_spec (N.shiftr v 7) 0) as [E|E]; [apply Last|].
    cbn [app _SkipVarint].
    rewrite ord_int2byte by apply lor_128_lt.
    rewrite land_lor_128_128. cbn [N.eqb Pos.eqb].
    apply IH. apply shiftr7_lt_pow.
    replace (N.of_nat fuel + 1 + 1) with (N.of_nat (S fuel) + 1) by lia.
    exact Hfuel.
Qed.

Lemma _SkipVarint_Encode v rest : _SkipVarint (EncodeVarint v ++ rest) = Ok rest.
Proof. apply _SkipVarint_Encode_loop, size_adequate. Qed.

Lemma _DecodeVarint_Encode v rest :
  v < 2 ^ 64 -> _DecodeVarint (EncodeVarint v ++ rest) = Ok (v, rest).
Proof.
  intros Hv. unfold _DecodeVarint, DecodeVarint.
  rewrite Decode_Encode by exact Hv. cbn [rbind].
  now rewrite N.land_ones, N.mod_small.
Qed.

End Tags.

Section Unknown.
Local Open Scope N_scope.
Variable Msg : Type.
Variable decoders_by_tag : list byte -> option (N * FieldType).
Variable setfield : N -> Z -> Msg -> Msg.

(** A varint field of a number no decoder is kept for is read over. *)
Lemma MergeFromString_unknown_varint n x msg :
  decoders_by_tag (TagBytes n WIRETYPE_VARINT) = None ->
  0 < n < 2 ^ 61 -> x < 2 ^ 64 ->
  MergeFromString Msg decoders_by_tag setfield
    (TagBytes n WIRETYPE_VARINT ++ EncodeVarint x) msg
  = Ok msg.
Proof.
  intros Hdec [Hn0 Hn] Hx. unfold MergeFromString.
  destruct (TagBytes n WIRETYPE_VARINT ++ EncodeVarint x) as [|b buffer] eqn:Ebuf.
  { apply (f_equal (@List.length byte)) in Ebuf. rewrite length_app in Ebuf.
    pose proof (EncodeVarint_nonempty x). cbn [List.length] in Ebuf. lia. }
  cbn [List.length InternalParse]. rewrite <- Ebuf.
  rewrite ReadTag_TagBytes. cbn [rbind]. rewrite Hdec.
  unfold TagBytes at 1.
  rewrite <- (app_nil_r (EncodeVarint (PackTag n WIRETYPE_VARINT))).
  rewrite _DecodeVarint_Encode by now apply PackTag_lt.
  cbn [rbind]. rewrite PackTag_number, PackTag_wire_type.
  destruct (N.eqb_spec n 0) as [E|_]; [lia|].
  unfold _DecodeUnknownField. cbn [DecodeUnknownField_of].
  rewrite <- (app_nil_r (EncodeVarint x)).
  rewrite _DecodeVarint_Encode by exact Hx. cbn [rbind].
  unfold SkipField, TagBytes. rewrite tag_wire_type_Encode, PackTag_wire_type.
  cbn [SkipField_of]. rewrite _SkipVarint_Encode. cbn [rbind].
  now rewrite InternalParse_nil.
Qed.

End Unknown.

End PayloadFacts.

(* ===================================================================== *)
(** ** Further statements about the synapse *)
(* ===================================================================== *)

Import ParserFacts SizeFacts WireFacts PayloadFacts MoreChecks.
Import Example ExampleFacts.

Ltac outcomes :=
  repeat match goal with
         | |- _ /\ _ => split
         | |- _ <-> _ => split
         end;
  intros;
  repeat match goal with
         | H : exists _, _ |- _ => destruct H
         | H : _ /\ _ |- _ => destruct H
         end;
  try discriminate; try lia; try tauto; eauto.


(** X1.  [serialize_to_wire_proto] returns a wire message exactly when the six
    attributes of the instance, the tag of the synapse and the return code
    are [int32] values, which is what the fields they go into hold; in every
    other case it raises [ValueError].  Either way the instance is left as it
    was. *)
Theorem serialize_to_wire_proto_succeeds_iff :
  forall (TEXT_SEQ_2_SEQ code : Z) (message : string) (v : t),
    ((exists w, fst (serialize_to_wire_proto TEXT_SEQ_2_SEQ code message v) = Ok w)
     <-> Schema.sendable TEXT_SEQ_2_SEQ v code) /\
    ((exists msg, fst (serialize_to_wire_proto TEXT_SEQ_2_SEQ code message v)
                  = Raise (ValueError msg))
     <-> ~ Schema.sendable TEXT_SEQ_2_SEQ v code) /\
    snd (serialize_to_wire_proto TEXT_SEQ_2_SEQ code message v) = v.
Proof.
  intros T code message v.
  destruct (serialize_to_wire_proto_cases T code message v) as [[S ->]|[S [m ->]]];
    cbn [fst snd]; outcomes.
Qed.

(** X2.  The payload tells the synapse: two instances (carrying the tag of the
    class) whose wire messages have the same [synapse_data] are equal,
    whatever codes and messages they were sent with. *)
Theorem payload_determines_the_synapse :
  forall (TEXT_SEQ_2_SEQ code1 code2 : Z) (message1 message2 : string)
         (v1 v2 : t) (w1 w2 : Proto.Synapse),
    synapse_type v1 = TEXT_SEQ_2_SEQ ->
    synapse_type v2 = TEXT_SEQ_2_SEQ ->
    fst (serialize_to_wire_proto TEXT_SEQ_2_SEQ code1 message1 v1) = Ok w1 ->
    fst (serialize_to_wire_proto TEXT_SEQ_2_SEQ code2 message2 v2) = Ok w2 ->
    Proto.synapse_data w1 = Proto.synapse_data w2 ->
    v1 = v2.
Proof.
  intros T c1 c2 m1 m2 v1 v2 w1 w2 T1 T2 S1 S2 E.
  destruct (serialize_to_wire_proto_cases T c1 m1 v1) as [[(F1 & _) R1]|[_ [m R1]]];
    rewrite R1 in S1; cbn [fst] in S1; [|discriminate].
  destruct (serialize_to_wire_proto_cases T c2 m2 v2) as [[(F2 & _) R2]|[_ [m R2]]];
    rewrite R2 in S2; cbn [fst] in S2; [|discriminate].
  injection S1 as <-. injection S2 as <-. cbn [Proto.synapse_data] in E.
  pose proof (ParseFromString_SerializeToString (Schema.instance_proto v1) F1) as P1.
  pose proof (ParseFromString_SerializeToString (Schema.instance_proto v2) F2) as P2.
  assert (P : Schema.instance_proto v1 = Schema.instance_proto v2) by congruence.
  pose proof (init_instance_proto T v1 T1) as I1.
  pose proof (init_instance_proto T v2 T2) as I2.
  rewrite P in I1. congruence.
Qed.

Lemma payload_determines_the_synapse_witness :
  synapse_type Scenario.synapse = Scenario.TEXT_SEQ_2_SEQ /\
  fst (serialize_to_wire_proto Scenario.TEXT_SEQ_2_SEQ 1 "Success" Scenario.synapse)
  = Ok Scenario.wire /\
  fst (serialize_to_wire_proto Scenario.TEXT_SEQ_2_SEQ 5 "Timeout" Scenario.synapse)
  = Ok (Proto.mkSynapse Scenario.payload Scenario.TEXT_SEQ_2_SEQ 5 "Timeout") /\
  Scenario.synapse = Scenario.synapse.
Proof.
  assert (H1 : synapse_type Scenario.synapse = Scenario.TEXT_SEQ_2_SEQ)
    by reflexivity.
  assert (H2 : fst (serialize_to_wire_proto Scenario.TEXT_SEQ_2_SEQ 1 "Success"
                      Scenario.synapse) = Ok Scenario.wire) by reflexivity.
  assert (H3 : fst (serialize_to_wire_proto Scenario.TEXT_SEQ_2_SEQ 5 "Timeout"
                      Scenario.synapse)
               = Ok (Proto.mkSynapse Scenario.payload Scenario.TEXT_SEQ_2_SEQ
                                     5 "Timeout")) by reflexivity.
  split; [exact H1|]. split; [exact H2|]. split; [exact H3|].
  exact (payload_determines_the_synapse _ _ _ _ _ _ _ _ _ H1 H1 H2 H3 eq_refl).
Defined.

(** X3.  Whatever bytes arrive, an instance that [deserialize_from_wire_proto]
    returns has its six attributes in the [int32] range and carries the tag
    of the class. *)
Theorem deserialized_synapse_fits_the_schema :
  forall (TEXT_SEQ_2_SEQ : Z) (w : Proto.Synapse) (v : t),
    deserialize_from_wire_proto TEXT_SEQ_2_SEQ w = Ok v ->
    Schema.fits v /\ synapse_type v = TEXT_SEQ_2_SEQ.
Proof.
  intros T w v H. rewrite deserialize_from_wire_proto_eval in H.
  destruct (Proto.ParseFromString (Proto.synapse_data w)) as [p|] eqn:E;
    cbn [rbind] in H; [|discriminate].
  injection H as <-. apply ParseFromString_well_typed in E.
  split; [exact E | reflexivity].
Qed.

(** The payload [10 ff ff ff ff ff ff ff ff ff 01] is read as [topk = -1]. *)
Lemma deserialized_synapse_fits_the_schema_witness :
  let w := Proto.mkSynapse
             [x10; xff; xff; xff; xff; xff; xff; xff; xff; xff; x01]
             Scenario.TEXT_SEQ_2_SEQ 1 "Success" in
  let v := __init__ Scenario.TEXT_SEQ_2_SEQ (-1) 0 0 0 0 0 in
  deserialize_from_wire_proto Scenario.TEXT_SEQ_2_SEQ w = Ok v /\
  Schema.fits v /\
  synapse_type v = Scenario.TEXT_SEQ_2_SEQ.
Proof.
  intros w v.
  assert (H : deserialize_from_wire_proto Scenario.TEXT_SEQ_2_SEQ w = Ok v)
    by reflexivity.
  split; [exact H|].
  exact (deserialized_synapse_fits_the_schema _ _ _ H).
Defined.

(** X4.  A synapse that was received can be sent on: if
    [deserialize_from_wire_proto] returns an instance, then
    [serialize_to_wire_proto] succeeds on it (for a tag and a code of the
    enum range) and the message it builds deserializes to the same
    instance. *)
Theorem received_synapse_can_be_sent_on :
  forall (TEXT_SEQ_2_SEQ code : Z) (message : string) (w : Proto.Synapse) (v : t),
    in_range TYPE_ENUM TEXT_SEQ_2_SEQ = true ->
    in_range TYPE_ENUM code = true ->
    deserialize_from_wire_proto TEXT_SEQ_2_SEQ w = Ok v ->
    exists w',
      serialize_to_wire_proto TEXT_SEQ_2_SEQ code message v = (Ok w', v) /\
      deserialize_from_wire_proto TEXT_SEQ_2_SEQ w' = Ok v.
Proof.
  intros T code message w v HT Hc H.
  rewrite deserialize_from_wire_proto_eval in H.
  destruct (Proto.ParseFromString (Proto.synapse_data w)) as [p|] eqn:E;
    cbn [rbind] in H; [|discriminate].
  injection H as <-. apply ParseFromString_well_typed in E.
  set (v := __init__ T _ _ _ _ _ _).
  assert (F : Schema.fits v) by exact E.
  destruct (serialize_to_wire_proto_cases T code message v) as [[_ R]|[N _]].
  - eexists. split; [exact R|].
    rewrite deserialize_from_wire_proto_eval. cbn [Proto.synapse_data].
    rewrite ParseFromString_SerializeToString by exact F.
    cbn [rbind]. reflexivity.
  - exfalso. apply N. split; [exact F | split; assumption].
Qed.

(** The scenario's payload followed by a field the message does not have
    (number 8), under a foreign envelope. *)
Lemma received_synapse_can_be_sent_on_witness :
  in_range TYPE_ENUM Scenario.TEXT_SEQ_2_SEQ = true /\
  in_range TYPE_ENUM 1 = true /\
  deserialize_from_wire_proto Scenario.TEXT_SEQ_2_SEQ
    (Proto.mkSynapse (Scenario.payload ++ [x40; x01]) 0 5 "Timeout")
  = Ok Scenario.synapse /\
  exists w',
    serialize_to_wire_proto Scenario.TEXT_SEQ_2_SEQ 1 "Success" Scenario.synapse
    = (Ok w', Scenario.synapse) /\
    deserialize_from_wire_proto Scenario.TEXT_SEQ_2_SEQ w' = Ok Scenario.synapse.
Proof.
  assert (H1 : in_range TYPE_ENUM Scenario.TEXT_SEQ_2_SEQ = true) by reflexivity.
  assert (H2 : in_range TYPE_ENUM 1 = true) by reflexivity.
  assert (H3 : deserialize_from_wire_proto Scenario.TEXT_SEQ_2_SEQ
                 (Proto.mkSynapse (Scenario.payload ++ [x40; x01]) 0 5 "Timeout")
               = Ok Scenario.synapse) by reflexivity.
  split; [exact H1|]. split; [exact H2|]. split; [exact H3|].
  exact (received_synapse_can_be_sent_on _ 1 "Success" _ _ H1 H2 H3).
Defined.

(** X5.  Attributes that are zero are not sent: the instance whose six
    attributes are zero has the empty payload, and a wire message with an
    empty payload deserializes to that instance, whatever its tag, code and
    message.  This is not the instance [TextSeq2Seq()] builds, whose [topk]
    and [num_to_generate] are 512. *)
Theorem empty_payload_is_the_all_zero_synapse :
  forall (TEXT_SEQ_2_SEQ MSGPACK type code : Z) (message : string),
    let zero_synapse := __init__ TEXT_SEQ_2_SEQ 0 0 0 0 0 0 in
    deserialize_from_wire_proto TEXT_SEQ_2_SEQ
      (Proto.mkSynapse [] type code message) = Ok zero_synapse /\
    Proto.SerializeToString (Schema.instance_proto zero_synapse) = [] /\
    zero_synapse <> default TEXT_SEQ_2_SEQ MSGPACK.
Proof.
  intros T M type code message z. repeat split. discriminate.
Qed.

(** X6.  A field that the message does not have is read over: a varint field
    with a number above 7 and a value below [2^64], after the payload of an
    instance, changes nothing to what [deserialize_from_wire_proto]
    returns. *)
Theorem unknown_field_is_read_over :
  forall (TEXT_SEQ_2_SEQ code : Z) (message : string) (v : t) (w : Proto.Synapse)
         (n x : N) (type' code' : Z) (message' : string),
    synapse_type v = TEXT_SEQ_2_SEQ ->
    fst (serialize_to_wire_proto TEXT_SEQ_2_SEQ code message v) = Ok w ->
    (7 < n < 2 ^ 29)%N ->
    (x < 2 ^ 64)%N ->
    deserialize_from_wire_proto TEXT_SEQ_2_SEQ
      (Proto.mkSynapse
         (Proto.synapse_data w ++ TagBytes n WIRETYPE_VARINT ++ EncodeVarint x)
         type' code' message')
    = Ok v.
Proof.
  intros T code message v w n x type' code' message' Tv S [Hn1 Hn2] Hx.
  assert (Hn : (n < 2 ^ 61)%N)
    by (eapply N.lt_trans; [exact Hn2 | reflexivity]).
  destruct (serialize_to_wire_proto_cases T code message v) as [[(F & _) R]|[_ [m R]]];
    rewrite R in S; cbn [fst] in S; [|discriminate].
  injection S as <-. cbn [Proto.synapse_data].
  rewrite deserialize_from_wire_proto_eval. cbn [Proto.synapse_data].
  rewrite ParseFromString_app by exact F.
  rewrite MergeFromString_unknown_varint;
    [ | apply TextSeq2Seq_decoders_by_tag_unknown; split; assumption
      | split; [lia | exact Hn] | exact Hx ].
  cbn [rbind]. f_equal. now apply init_instance_proto.
Qed.

Lemma unknown_field_is_read_over_witness :
  synapse_type Scenario.synapse = Scenario.TEXT_SEQ_2_SEQ /\
  fst (serialize_to_wire_proto Scenario.TEXT_SEQ_2_SEQ 1 "Success" Scenario.synapse)
  = Ok Scenario.wire /\
  (7 < 8 < 2 ^ 29)%N /\
  (1 < 2 ^ 64)%N /\
  deserialize_from_wire_proto Scenario.TEXT_SEQ_2_SEQ
    (Proto.mkSynapse (Scenario.payload ++ [x40; x01]) 0 5 "Timeout")
  = Ok Scenario.synapse.
Proof.
  assert (H1 : synapse_type Scenario.synapse = Scenario.TEXT_SEQ_2_SEQ)
    by reflexivity.
  assert (H2 : fst (serialize_to_wire_proto Scenario.TEXT_SEQ_2_SEQ 1 "Success"
                      Scenario.synapse) = Ok Scenario.wire) by reflexivity.
  assert (H3 : (7 < 8 < 2 ^ 29)%N) by (split; reflexivity).
  assert (H4 : (1 < 2 ^ 64)%N) by reflexivity.
  split; [exact H1|]. split; [exact H2|]. split; [exact H3|]. split; [exact H4|].
  exact (unknown_field_is_read_over _ _ _ _ _ 8%N 1%N 0 5 "Timeout" H1 H2 H3 H4).
Defined.

(** X7.  A payload that stops right after the tag of one of the six fields
    (numbers 2 to 7) is refused: [deserialize_from_wire_proto] raises
    [DecodeError] and returns no instance. *)
Theorem payload_cut_after_a_tag_is_refused :
  forall (TEXT_SEQ_2_SEQ code : Z) (message : string) (v : t) (w : Proto.Synapse)
         (n : N) (type' code' : Z) (message' : string),
    fst (serialize_to_wire_proto TEXT_SEQ_2_SEQ code message v) = Ok w ->
    (2 <= n <= 7)%N ->
    deserialize_from_wire_proto TEXT_SEQ_2_SEQ
      (Proto.mkSynapse (Proto.synapse_data w ++ TagBytes n WIRETYPE_VARINT)
                       type' code' message')
    = Raise DecodeError.
Proof.
  intros T code message v w n type' code' message' S [Hn1 Hn2].
  destruct (serialize_to_wire_proto_cases T code message v) as [[(F & _) R]|[_ [m R]]];
    rewrite R in S; cbn [fst] in S; [|discriminate].
  injection S as <-. cbn [Proto.synapse_data].
  rewrite deserialize_from_wire_proto_eval. cbn [Proto.synapse_data].
  rewrite ParseFromString_app by exact F.
  assert (C : (n = 2 \/ n = 3 \/ n = 4 \/ n = 5 \/ n = 6 \/ n = 7)%N) by lia.
  destruct C as [->|[->|[->|[->|[->| ->]]]]]; reflexivity.
Qed.

Lemma payload_cut_after_a_tag_is_refused_witness :
  fst (serialize_to_wire_proto Scenario.TEXT_SEQ_2_SEQ 1 "Success" Scenario.synapse)
  = Ok Scenario.wire /\
  (2 <= 4 <= 7)%N /\
  deserialize_from_wire_proto Scenario.TEXT_SEQ_2_SEQ
    (Proto.mkSynapse (Scenario.payload ++ [x20]) Scenario.TEXT_SEQ_2_SEQ 1 "Success")
  = Raise DecodeError.
Proof.
  assert (H1 : fst (serialize_to_wire_proto Scenario.TEXT_SEQ_2_SEQ 1 "Success"
                      Scenario.synapse) = Ok Scenario.wire) by reflexivity.
  assert (H2 : (2 <= 4 <= 7)%N) by (split; discriminate).
  split; [exact H1|]. split; [exact H2|].
  exact (payload_cut_after_a_tag_is_refused _ _ _ _ _ 4%N
           Scenario.TEXT_SEQ_2_SEQ 1 "Success" H1 H2).
Defined.

(** X9.  The payload of a wire message that [serialize_to_wire_proto] returns
    has at most 66 bytes: six fields, each a tag of one byte and a value of
    at most ten. *)
Theorem payload_is_at_most_66_bytes :
  forall (TEXT_SEQ_2_SEQ code : Z) (message : string) (v : t) (w : Proto.Synapse),
    fst (serialize_to_wire_proto TEXT_SEQ_2_SEQ code message v) = Ok w ->
    (List.length (Proto.synapse_data w) <= 66)%nat.
Proof.
  intros T code message v w S.
  destruct (serialize_to_wire_proto_cases T code message v) as [[(F & _) R]|[_ [m R]]];
    rewrite R in S; cbn [fst] in S; [|discriminate].
  injection S as <-. cbn [Proto.synapse_data].
  now apply SerializeToString_length.
Qed.

(** The bound is reached: with every attribute at [-1] the payload has 66
    bytes. *)
Lemma payload_is_at_most_66_bytes_witness :
  let w := Proto.mkSynapse
             (Proto.SerializeToString (Schema.instance_proto Scenario.negative))
             Scenario.TEXT_SEQ_2_SEQ 1 "Success" in
  fst (serialize_to_wire_proto Scenario.TEXT_SEQ_2_SEQ 1 "Success" Scenario.negative)
  = Ok w /\
  List.length (Proto.synapse_data w) = 66%nat /\
  (List.length (Proto.synapse_data w) <= 66)%nat.
Proof.
  intros w.
  assert (H : fst (serialize_to_wire_proto Scenario.TEXT_SEQ_2_SEQ 1 "Success"
                     Scenario.negative) = Ok w) by reflexivity.
  split; [exact H|]. split; [reflexivity|].
  exact (payload_is_at_most_66_bytes _ _ _ _ _ H).
Defined.

(** X10.  [check_forward_response_tensor] raises [IndexError], not
    [ValueError], exactly when the request has no dimension at all: both its
    condition and its error message read [forward_request_tensor.size(0)]. *)
Theorem check_forward_response_tensor_IndexError_iff :
  forall (self : t) (req resp : Tensor),
    fst (check_forward_response_tensor req resp self) = Raise IndexError
    <-> rank req = 0.
Proof.
  intros self req resp. split.
  - intros H. pose proof (rank_nonneg req).
    destruct (Z.eq_dec (rank req) 0) as [E|E]; [exact E|].
    rewrite check_forward_response_tensor_eval in H by lia. cbn [fst] in H.
    destruct (negb (rank resp =? 2)
              || (negb (dim resp 0 =? dim req 0)
                  || (dim resp 1 >? num_to_generate self))); discriminate.
  - intros E. now rewrite check_forward_response_tensor_scalar.
Qed.

(** X11.  A synapse whose [num_to_generate] is negative accepts no response:
    whatever the request and the response, the check does not return. *)
Theorem negative_num_to_generate_refuses_every_response :
  forall (self : t) (req resp : Tensor),
    num_to_generate self < 0 ->
    fst (check_forward_response_tensor req resp self) <> Ok tt.
Proof.
  intros self req resp Hn. pose proof (rank_nonneg req).
  destruct (Z.eq_dec (rank req) 0) as [E|E].
  - now rewrite check_forward_response_tensor_scalar.
  - rewrite check_forward_response_tensor_eval by lia. cbn [fst].
    rewrite Z.gtb_ltb.
    pose proof (dim_nonneg resp 1).
    destruct (Z.ltb_spec (num_to_generate self) (dim resp 1)); [|lia].
    now rewrite !orb_true_r.
Qed.

Lemma negative_num_to_generate_refuses_every_response_witness :
  num_to_generate Scenario.refusing < 0 /\
  fst (check_forward_response_tensor (Scenario.ones [1%N; 6%N])
         (Scenario.ones [1%N; 0%N]) Scenario.refusing) <> Ok tt.
Proof.
  assert (H : num_to_generate Scenario.refusing < 0) by reflexivity.
  split; [exact H|].
  exact (negative_num_to_generate_refuses_every_response _ _ _ H).
Defined.

(** X12.  The nil response does not pass the response check of its own
    synapse: for a validated request, what [nill_forward_response_tensor]
    returns has three dimensions, and [check_forward_response_tensor] refuses
    it with [ValueError]. *)
Theorem nil_forward_response_fails_response_check :
  forall (vocab_size : Z) (self : t) (req : Tensor),
    validated self req -> 0 <= vocab_size ->
    exists out,
      nill_forward_response_tensor vocab_size req self = (Ok out, self) /\
      exists msg,
        check_forward_response_tensor req out self = (Raise (ValueError msg), self).
Proof.
  intros vocab_size self req V Hv. apply validated_rank in V.
  eexists. split.
  - apply nill_forward_response_tensor_eval; lia.
  - rewrite check_forward_response_tensor_eval by lia.
    eexists. reflexivity.
Qed.

Lemma nil_forward_response_fails_response_check_witness :
  validated Scenario.synapse (Scenario.ones [1%N; 4%N]) /\
  0 <= Scenario.vocab_size /\
  exists out,
    nill_forward_response_tensor Scenario.vocab_size (Scenario.ones [1%N; 4%N])
      Scenario.synapse = (Ok out, Scenario.synapse) /\
    exists msg,
      check_forward_response_tensor (Scenario.ones [1%N; 4%N]) out Scenario.synapse
      = (Raise (ValueError msg), Scenario.synapse).
Proof.
  assert (V : validated Scenario.synapse (Scenario.ones [1%N; 4%N])) by reflexivity.
  assert (P : 0 <= Scenario.vocab_size) by (unfold Scenario.vocab_size; lia).
  split; [exact V|]. split; [exact P|].
  exact (nil_forward_response_fails_response_check _ _ _ V P).
Defined.

(** X13.  A gradient that passes [check_backward_request_gradient] against a
    validated request is itself a valid request, and stands for the request
    in the response check: every response gets the same outcome against
    either. *)
Theorem accepted_gradient_is_a_valid_request :
  forall (self : t) (req grad : Tensor),
    validated self req ->
    fst (check_backward_request_gradient req grad self) = Ok tt ->
    validated self grad /\
    forall resp,
      check_forward_response_tensor grad resp self
      = check_forward_response_tensor req resp self.
Proof.
  intros self req grad V H.
  rewrite check_backward_request_gradient_eval in H. cbn [fst] in H.
  destruct (list_eq_dec Z.eq_dec (shape_list grad) (shape_list req)) as [E|E];
    [|discriminate].
  apply shape_list_inj in E.
  assert (R : rank grad = rank req) by (unfold rank; now rewrite E).
  apply validated_rank in V. split.
  - apply validated_rank. lia.
  - intros resp. rewrite !check_forward_response_tensor_eval by lia.
    unfold dim, shape_list. now rewrite E.
Qed.

Lemma accepted_gradient_is_a_valid_request_witness :
  validated Scenario.synapse (Scenario.ones [1%N; 6%N]) /\
  fst (check_backward_request_gradient (Scenario.ones [1%N; 6%N])
         (mkTensor [1%N; 6%N] float32 (repeat zero 6)) Scenario.synapse) = Ok tt /\
  validated Scenario.synapse (mkTensor [1%N; 6%N] float32 (repeat zero 6)) /\
  forall resp,
    check_forward_response_tensor (mkTensor [1%N; 6%N] float32 (repeat zero 6))
      resp Scenario.synapse
    = check_forward_response_tensor (Scenario.ones [1%N; 6%N]) resp Scenario.synapse.
Proof.
  assert (V : validated Scenario.synapse (Scenario.ones [1%N; 6%N])) by reflexivity.
  assert (H : fst (check_backward_request_gradient (Scenario.ones [1%N; 6%N])
                     (mkTensor [1%N; 6%N] float32 (repeat zero 6))
                     Scenario.synapse) = Ok tt) by reflexivity.
  split; [exact V|]. split; [exact H|].
  exact (accepted_gradient_is_a_valid_request _ _ _ V H).
Defined.

(** X14.  [nill_forward_response_tensor] in full: it returns a tensor exactly
    when the request has at least two dimensions (more are allowed and
    ignored) and the vocabulary size is not negative; it raises [IndexError]
    exactly when the request has fewer than two dimensions, and
    [RuntimeError] exactly when the request has two and the vocabulary size
    is negative.  It never changes the instance. *)
Theorem nill_forward_response_tensor_outcomes :
  forall (vocab_size : Z) (self : t) (req : Tensor),
    ((exists out, fst (nill_forward_response_tensor vocab_size req self) = Ok out)
     <-> 2 <= rank req /\ 0 <= vocab_size) /\
    (fst (nill_forward_response_tensor vocab_size req self) = Raise IndexError
     <-> rank req < 2) /\
    (fst (nill_forward_response_tensor vocab_size req self) = Raise RuntimeError
     <-> 2 <= rank req /\ vocab_size < 0) /\
    snd (nill_forward_response_tensor vocab_size req self) = self.
Proof.
  intros vocab_size self req. rewrite nill_forward_response_tensor_cases.
  cbn [fst snd].
  destruct (Z.ltb_spec (rank req) 2); [|destruct (Z.ltb_spec vocab_size 0)];
    outcomes.
Qed.

(** X15.  [nill_backward_response_gradient] in full: it returns a tensor
    exactly when the request has at least three dimensions and raises
    [IndexError] exactly when it has fewer.  For a request of exactly three
    dimensions the result is a [float32] tensor of zeros with the shape of the
    request, which passes [check_backward_request_gradient] against it. *)
Theorem nill_backward_response_gradient_outcomes :
  forall (self : t) (req : Tensor),
    ((exists out, fst (nill_backward_response_gradient req self) = Ok out)
     <-> 3 <= rank req) /\
    (fst (nill_backward_response_gradient req self) = Raise IndexError
     <-> rank req < 3) /\
    (rank req = 3 ->
     exists out,
       nill_backward_response_gradient req self = (Ok out, self) /\
       shape out = shape req /\ dtype_ out = float32 /\ all_zero out /\
       fst (check_backward_request_gradient req out self) = Ok tt).
Proof.
  intros self req. rewrite nill_backward_response_gradient_cases. cbn [fst].
  destruct (Z.ltb_spec (rank req) 3) as [L|G]; outcomes.
  eexists. split; [reflexivity|].
  assert (S : shape {| shape := [nth 0 (shape req) 0%N; nth 1 (shape req) 0%N;
                                  nth 2 (shape req) 0%N];
                        dtype_ := float32;
                        data := repeat zero
                                  (N.to_nat (numel [nth 0 (shape req) 0%N;
                                                    nth 1 (shape req) 0%N;
                                                    nth 2 (shape req) 0%N])) |}
              = shape req)
    by (cbn [shape]; symmetry; now apply rank_3_shape).
  repeat split.
  - exact S.
  - apply repeat_all_zero.
  - rewrite check_backward_request_gradient_eval. cbn [fst].
    apply shape_list_inj in S.
    destruct (list_eq_dec Z.eq_dec _ _) as [_|N]; [reflexivity|contradiction].
Qed.

Lemma nill_backward_response_gradient_outcomes_witness :
  rank (Scenario.ones [2%N; 8%N; 3%N]) = 3 /\
  exists out,
    nill_backward_response_gradient (Scenario.ones [2%N; 8%N; 3%N]) Scenario.synapse
    = (Ok out, Scenario.synapse) /\
    shape out = [2%N; 8%N; 3%N] /\ dtype_ out = float32 /\ all_zero out /\
    fst (check_backward_request_gradient (Scenario.ones [2%N; 8%N; 3%N]) out
           Scenario.synapse) = Ok tt.
Proof.
  assert (R : rank (Scenario.ones [2%N; 8%N; 3%N]) = 3) by reflexivity.
  split; [exact R|].
  exact (proj2 (proj2 (nill_backward_response_gradient_outcomes
                         Scenario.synapse (Scenario.ones [2%N; 8%N; 3%N]))) R).
Defined.

(** X16.  The example synapse, on inputs of at least two dimensions and with a
    network dimension that is not negative: [forward] writes into the call it
    was given, and returns that call, with [hidden_states] a [float32] tensor
    of zeros of shape
    [(text_inputs.shape[0], text_inputs.shape[1], network_dim)] and
    [text_inputs] as it was. *)
Theorem example_forward_returns_zeros :
  forall (network_dim : Z) (call : ForwardCall),
    2 <= rank (text_inputs call) ->
    0 <= network_dim ->
    exists z,
      forward network_dim call
      = (Ok (mkForwardCall (text_inputs call) (Some z)),
         mkForwardCall (text_inputs call) (Some z)) /\
      shape_list z = [dim (text_inputs call) 0; dim (text_inputs call) 1; network_dim] /\
      dtype_ z = float32 /\
      all_zero z.
Proof.
  intros network_dim call R P. rewrite forward_cases.
  destruct (Z.ltb_spec (rank (text_inputs call)) 2); [lia|].
  destruct (Z.ltb_spec network_dim 0); [lia|].
  eexists. split; [reflexivity|].
  unfold shape_list, all_zero, dim. cbn [shape dtype_ data map].
  rewrite Z2N.id by exact P. repeat split. apply repeat_all_zero.
Qed.

Lemma example_forward_returns_zeros_witness :
  let call := mkForwardCall (Scenario.ones [1%N; 1%N]) None in
  2 <= rank (text_inputs call) /\
  0 <= 1024 /\
  exists z,
    forward 1024 call
    = (Ok (mkForwardCall (text_inputs call) (Some z)),
       mkForwardCall (text_inputs call) (Some z)) /\
    shape_list z = [1; 1; 1024] /\
    dtype_ z = float32 /\
    all_zero z.
Proof.
  intros call.
  assert (R : 2 <= rank (text_inputs call)) by (cbn; lia).
  assert (P : 0 <= 1024) by lia.
  split; [exact R|]. split; [exact P|].
  exact (example_forward_returns_zeros 1024 call R P).
Defined.

(** X17.  [forward] raises [IndexError] exactly when [text_inputs] has fewer
    than two dimensions, and whenever it raises, the call has not been
    written to: [hidden_states] is what it was. *)
Theorem example_forward_raises_without_writing :
  forall (network_dim : Z) (call : ForwardCall),
    (fst (forward network_dim call) = Raise IndexError
     <-> rank (text_inputs call) < 2) /\
    (forall e, fst (forward network_dim call) = Raise e ->
               snd (forward network_dim call) = call).
Proof.
  intros network_dim call. rewrite forward_cases.
  destruct (Z.ltb_spec (rank (text_inputs call)) 2);
    [|destruct (Z.ltb_spec network_dim 0)]; cbn [fst snd];
    repeat split; intros; try discriminate; try lia; auto.
Qed.

Lemma example_forward_raises_without_writing_witness :
  fst (forward 1024 (mkForwardCall (Scenario.ones [5%N]) None)) = Raise IndexError /\
  snd (forward 1024 (mkForwardCall (Scenario.ones [5%N]) None))
  = mkForwardCall (Scenario.ones [5%N]) None.
Proof.
  assert (H : fst (forward 1024 (mkForwardCall (Scenario.ones [5%N]) None))
              = Raise IndexError) by reflexivity.
  split; [exact H|].
  exact (proj2 (example_forward_raises_without_writing 1024
                  (mkForwardCall (Scenario.ones [5%N]) None)) IndexError H).
Defined.

(** X18.  Calling [forward] again on the call it returned changes nothing:
    twice in a row gives the result and the call that once gives. *)
Theorem example_forward_twice_is_forward_once :
  forall (network_dim : Z) (call : ForwardCall),
    bind (forward network_dim) (fun _ => forward network_dim) call
    = forward network_dim call.
Proof.
  intros network_dim call. unfold bind.
  rewrite (forward_cases network_dim call).
  destruct (Z.ltb_spec (rank (text_inputs call)) 2) as [L|G]; [reflexivity|].
  destruct (Z.ltb_spec network_dim 0) as [N|P]; [reflexivity|].
  cbv beta iota zeta. rewrite forward_cases. cbn [text_inputs].
  destruct (Z.ltb_spec (rank (text_inputs call)) 2); [lia|].
  destruct (Z.ltb_spec network_dim 0); [lia|]. reflexivity.
Qed.
